(** * Synchronisation core of the Selenium lessons

    The lessons in [01_wait_strategies.py] and [01_page_object_model.py]
    poll a browser page until a condition holds.  This development embeds

    - the polling engine ([WaitEngine]),
    - the custom wait conditions of [demonstrate_custom_wait_conditions],
      on the page of one tick ([Conditions]) and over a remote driver
      whose calls may raise ([RemoteConditions]),
    - the page objects [BasePage], [GooglePage], [FacebookPage],
      [AmazonPage], with the result lists also on a live page
      ([LivePage]),
    - the test fixture [TestBase], the tests and the demonstrations,

    and then proves the properties stated about them.  Durations are
    integers (milliseconds, or seconds where the Python code writes
    seconds); the clock is simulated: evaluating a predicate takes no time
    and only sleeping advances it. *)

From Stdlib Require Import ZArith Lia List Bool String.
From stdpp Require Import gmap strings list.

(* ===================================================================== *)
(** * Part I: definitions                                                 *)
(* ===================================================================== *)

(** ** Error kinds of the remote query mechanism *)

(** Modelled from the spec: the kinds of error that the remote query
    mechanism raises (selenium's exception classes are not part of the
    repository). *)
Inductive ErrorKind :=
| NotFound
| StaleReference
| SessionLost
| InvalidLocator
| Other.

#[global] Instance ErrorKind_eq_dec : EqDecision ErrorKind.
Proof. solve_decision. Defined.

Definition ErrorKind_code (e : ErrorKind) : nat :=
  match e with
  | NotFound => 0
  | StaleReference => 1
  | SessionLost => 2
  | InvalidLocator => 3
  | Other => 4
  end.

Definition ErrorKind_of_code (n : nat) : ErrorKind :=
  match n with
  | 0 => NotFound
  | 1 => StaleReference
  | 2 => SessionLost
  | 3 => InvalidLocator
  | _ => Other
  end.

#[global] Instance ErrorKind_countable : Countable ErrorKind.
Proof.
  apply (inj_countable' ErrorKind_code ErrorKind_of_code).
  intros []; reflexivity.
Defined.

(** Modelled from the spec: the outcome of one evaluation of a condition
    on the remote state (the lessons' closures return a truth value or
    raise). *)
Inductive ConditionOutcome (A : Type) :=
| Pending
| Satisfied (payload : A)
| Failed (error : ErrorKind).

Arguments Pending {A}.
Arguments Satisfied {A} payload.
Arguments Failed {A} error.

Definition is_satisfied {A} (o : ConditionOutcome A) : bool :=
  match o with
  | Satisfied _ => true
  | _ => false
  end.

(* --------------------------------------------------------------------- *)
(** ** The wait engine                                                    *)
(* --------------------------------------------------------------------- *)

Module WaitEngine.

Local Open Scope Z_scope.

(** Modelled from the spec: the configuration of one wait, the arguments
    of [WebDriverWait(driver, timeout, poll_frequency)] and the message of
    [until]. *)
Record WaitSpec := {
  timeout : Z;
  pollInterval : Z;
  ignoredErrorKinds : gset ErrorKind;
  message : option string
}.

(** Default ignorable kinds of the configuration surface. *)
Definition default_ignored : gset ErrorKind := {[ NotFound; StaleReference ]}.

(** Modelled from the spec: what a successful wait returns. *)
Record PollResult (A : Type) := {
  outcome : ConditionOutcome A;
  elapsed : Z;
  attempts : nat
}.

Arguments outcome {A} _.
Arguments elapsed {A} _.
Arguments attempts {A} _.

(** Modelled from the spec: what a [TimeoutExceeded] carries: the
    predicate's description, the elapsed time, the attempt count and the
    optional message, verbatim. *)
Record Diagnostic := {
  awaited : string;
  waited : Z;
  tried : nat;
  note : option string
}.

(** Modelled from the spec: the ways a call of [awaitCondition] ends,
    each with the elapsed time and the attempt count at that point. *)
Inductive AwaitResult (A : Type) :=
| Returned (r : PollResult A)
| TimeoutExceeded (d : Diagnostic)
| CancelledByCaller (at_elapsed : Z) (at_attempt : nat)
| Propagated (e : ErrorKind) (at_elapsed : Z) (at_attempt : nat).

Arguments Returned {A} r.
Arguments TimeoutExceeded {A} d.
Arguments CancelledByCaller {A} at_elapsed at_attempt.
Arguments Propagated {A} e at_elapsed at_attempt.

Section Engine.

Context {A : Type}.

(** [predicate t] is the outcome of evaluating the awaited predicate on
    the remote state as it is [t] time units after the call started;
    [cancelled t] tells whether the caller's cancellation signal has
    been raised by then. *)
Variable description : string.
Variable predicate : Z -> ConditionOutcome A.
Variable cancelled : Z -> bool.
Variable spec : WaitSpec.

Definition ignorable (e : ErrorKind) : bool :=
  bool_decide (e ∈ ignoredErrorKinds spec).

(** Modelled from the spec: the polling loop of [awaitCondition]; the
    lessons call selenium's [WebDriverWait.until], whose code is not
    part of the repository.  The steps are those of the design, in its
    order: evaluate once; Satisfied returns; a failure outside the
    ignorable set propagates; otherwise a raised cancellation stops
    with CancelledByCaller; otherwise an elapsed time that exceeds the
    timeout stops with TimeoutExceeded; otherwise sleep one poll
    interval and retry.  [now] is the time elapsed since the recorded
    start, [attempt] the number of evaluations made so far; [fuel]
    bounds the number of ticks and [None] stands for a loop that is
    still running when it is used up.  Next to the result the loop
    returns the start times of its evaluation ticks, in order. *)
Fixpoint await_loop (fuel : nat) (now : Z) (attempt : nat)
  : option (AwaitResult A * list Z) :=
  match fuel with
  | O => None
  | S fuel' =>
      let attempt' := S attempt in
      let retry :=
        if cancelled now then
          Some (CancelledByCaller now attempt', [now])
        else if timeout spec <? now then
          Some (TimeoutExceeded {| awaited := description;
                                   waited := now;
                                   tried := attempt';
                                   note := message spec |}, [now])
        else
          match await_loop fuel' (now + pollInterval spec) attempt' with
          | Some (r, ticks) => Some (r, now :: ticks)
          | None => None
          end in
      match predicate now with
      | Satisfied v =>
          Some (Returned {| outcome := Satisfied v;
                            elapsed := now;
                            attempts := attempt' |}, [now])
      | Failed e =>
          if ignorable e then retry
          else Some (Propagated e now attempt', [now])
      | Pending => retry
      end
  end.

Definition awaitCondition (fuel : nat) : option (AwaitResult A * list Z) :=
  await_loop fuel 0 0.

(** The outcomes after which the loop goes on to the cancellation and
    timeout checks: Pending, and Failed with an ignorable kind. *)
Definition retries (o : ConditionOutcome A) : bool :=
  match o with
  | Pending => true
  | Failed e => ignorable e
  | Satisfied _ => false
  end.

End Engine.

(** Elapsed time and attempt count reported by a finished call. *)
Definition result_elapsed {A} (r : AwaitResult A) : Z :=
  match r with
  | Returned p => elapsed p
  | TimeoutExceeded d => waited d
  | CancelledByCaller t _ => t
  | Propagated _ t _ => t
  end.

Definition result_attempts {A} (r : AwaitResult A) : nat :=
  match r with
  | Returned p => attempts p
  | TimeoutExceeded d => tried d
  | CancelledByCaller _ n => n
  | Propagated _ _ n => n
  end.

(** A predicate that is never Satisfied and never fails. *)
Definition never : Z -> ConditionOutcome unit := fun _ => Pending.

Definition no_cancel : Z -> bool := fun _ => false.

(** A session that is lost one second into the wait. *)
Definition lost_after_a_second : Z -> ConditionOutcome unit :=
  fun t => if t <? 1000 then Pending else Failed SessionLost.

(** A session that is lost before the first evaluation. *)
Definition lost : Z -> ConditionOutcome unit := fun _ => Failed SessionLost.

(** The wait of [demonstrate_wait_timeout_handling]:
    [WebDriverWait(driver, 2)], polled every half second. *)
Definition short_wait : WaitSpec :=
  {| timeout := 2000; pollInterval := 500;
     ignoredErrorKinds := default_ignored; message := None |}.

(** The wait of [demonstrate_fluent_wait]:
    [WebDriverWait(driver, timeout=10, poll_frequency=0.5)] with the
    message of its first [until]. *)
Definition fluent_wait : WaitSpec :=
  {| timeout := 10000; pollInterval := 500;
     ignoredErrorKinds := default_ignored;
     message := Some "Email field not found within 10 seconds"%string |}.

(** A target that is there from the time [t] on. *)
Definition ready_from (t : Z) : Z -> ConditionOutcome unit :=
  fun now => if now <? t then Pending else Satisfied tt.

End WaitEngine.

(* --------------------------------------------------------------------- *)
(** ** Python exceptions and results                                      *)
(* --------------------------------------------------------------------- *)

Inductive Exn :=
| TimeoutException
| NoSuchElementException
| StaleElementReferenceException
| WebDriverException
| TypeError
| AttributeError.

#[global] Instance Exn_eq_dec : EqDecision Exn.
Proof. solve_decision. Defined.

Inductive Outcome (A : Type) :=
| Ok (value : A)
| Raise (e : Exn).

Arguments Ok {A} value.
Arguments Raise {A} e.

Definition is_ok {A} (r : Outcome A) : bool :=
  match r with
  | Ok _ => true
  | Raise _ => false
  end.

Definition error_of {A} (r : Outcome A) : option Exn :=
  match r with
  | Ok _ => None
  | Raise e => Some e
  end.

(** Locators: a strategy tag and a selector string, as the tuples
    [(By.NAME, "q")] of the lessons. *)
Inductive By := ID | NAME | CLASS_NAME | TAG_NAME | LINK_TEXT | CSS_SELECTOR | XPATH.

#[global] Instance By_eq_dec : EqDecision By.
Proof. solve_decision. Defined.

Definition Locator : Type := By * string.

(* --------------------------------------------------------------------- *)
(** ** The custom wait conditions of [01_wait_strategies.py]              *)
(* --------------------------------------------------------------------- *)

Module Conditions.

(** An element of the page as one tick sees it.  [ref] is the identity
    of the element in the page; [attributes] holds the attributes that
    [get_attribute] reads. *)
Record WebElement := {
  ref : nat;
  tag : string;
  attributes : gmap string string;
  text : string;
  enabled : bool;
  displayed : bool
}.

(** The page at one tick: its elements in document order. *)
Definition Page : Type := list WebElement.

(** [text in s] on Python strings. *)
Fixpoint contains (sub s : string) : bool :=
  String.prefix sub s ||
  match s with
  | EmptyString => false
  | String _ s' => contains sub s'
  end.

Section Driver.

(** Query execution belongs to the browser: [matches] decides whether
    an element answers a locator. *)
Variable matches : Locator -> WebElement -> bool.

(** [driver.find_elements(by, value)]: every match, in document order;
    the empty list when there is none. *)
Definition find_elements (locator : Locator) (driver : Page) : list WebElement :=
  List.filter (matches locator) driver.

(** [driver.find_element(by, value)]: the first match, or
    NoSuchElementException. *)
Definition find_element (locator : Locator) (driver : Page) : Outcome WebElement :=
  match find_elements locator driver with
  | [] => Raise NoSuchElementException
  | element :: _ => Ok element
  end.

(** [element.get_attribute(name)]: [None] when the attribute is absent. *)
Definition get_attribute (element : WebElement) (name : string) : option string :=
  attributes element !! name.

(** [element_has_text(locator, text)]: the condition closure.  [in]
    applied to [None] raises TypeError. *)
Definition element_has_text (locator : Locator) (text : string)
  : Page -> Outcome bool :=
  fun driver =>
    match find_element locator driver with
    | Raise e => Raise e
    | Ok element =>
        match get_attribute element "value" with
        | None => Raise TypeError
        | Some value => Ok (contains text value)
        end
    end.

(** [page_has_minimum_links(min_links)]; the threshold is a Python
    integer. *)
Definition page_has_minimum_links (min_links : Z) : Page -> Outcome bool :=
  fun driver =>
    let links := find_elements (TAG_NAME, "a") driver in
    Ok (min_links <=? Z.of_nat (length links))%Z.

(** [element_is_enabled_and_visible(locator)]; [and] evaluates
    [is_displayed] only when [is_enabled] is true. *)
Definition element_is_enabled_and_visible (locator : Locator)
  : Page -> Outcome bool :=
  fun driver =>
    match find_element locator driver with
    | Raise e => Raise e
    | Ok element =>
        Ok (if enabled element then displayed element else false)
    end.



(** Modelled from the spec: [presence(locator)] of the condition
    library (selenium's [EC.presence_of_element_located], not part of
    the repository): Satisfied iff there is at least one match, else
    Pending. *)
Definition presence (locator : Locator) (driver : Page)
  : ConditionOutcome WebElement :=
  match find_elements locator driver with
  | [] => Pending
  | element :: _ => Satisfied element
  end.

End Driver.

(** Modelled from the spec: the kind under which an exception of a
    condition closure is classified at the boundary of the predicate. *)
Definition kind_of (e : Exn) : ErrorKind :=
  match e with
  | NoSuchElementException => NotFound
  | StaleElementReferenceException => StaleReference
  | _ => Other
  end.

(** Modelled from the spec: how a wait reads the value of a condition
    closure on one tick (the reading is done inside selenium's [until]):
    a truthy value is Satisfied, a falsy one Pending, an exception Failed
    with the kind of the exception. *)
Definition observe (r : Outcome bool) : ConditionOutcome bool :=
  match r with
  | Ok true => Satisfied true
  | Ok false => Pending
  | Raise e => Failed (kind_of e)
  end.


(** A matcher for the strategies the examples use. *)
Definition simple_matches (locator : Locator) (element : WebElement) : bool :=
  match locator with
  | (NAME, v) => bool_decide (attributes element !! "name" = Some v)
  | (ID, v) => bool_decide (attributes element !! "id" = Some v)
  | (TAG_NAME, v) => bool_decide (tag element = v)
  | _ => false
  end.

End Conditions.

(* --------------------------------------------------------------------- *)
(** ** The custom wait conditions over a remote driver                    *)
(* --------------------------------------------------------------------- *)

(** In [Conditions] the driver answers from the page of one tick, and a
    lookup can only fail by finding nothing.  Against a browser every
    call of a closure is a remote call of its own, which returns or
    raises (no such element, a stale element, a lost session ...).  Here
    the calls of the driver are parameters, each of which may raise
    anything; the closures are the same code. *)
Module RemoteConditions.

Section Driver.

Variable Element : Type.

(** [driver.find_element(by, value)]. *)
Variable find_element : Locator -> Outcome Element.

(** [driver.find_elements(by, value)]. *)
Variable find_elements : Locator -> Outcome (list Element).

(** [element.get_attribute(name)]: [None] when the attribute is absent. *)
Variable get_attribute : Element -> string -> Outcome (option string).

(** [element_has_text(locator, text)]: the element is looked up, its
    [value] attribute is read, and [text in] is applied to what was
    read.  [in] applied to [None] raises TypeError. *)
Definition element_has_text (locator : Locator) (text : string) : Outcome bool :=
  match find_element locator with
  | Raise e => Raise e
  | Ok element =>
      match get_attribute element "value" with
      | Raise e => Raise e
      | Ok None => Raise TypeError
      | Ok (Some value) => Ok (Conditions.contains text value)
      end
  end.

(** [page_has_minimum_links(min_links)]: the links are looked up and
    their number is compared with the threshold, a Python integer. *)
Definition page_has_minimum_links (min_links : Z) : Outcome bool :=
  match find_elements (TAG_NAME, "a") with
  | Raise e => Raise e
  | Ok links => Ok (min_links <=? Z.of_nat (length links))%Z
  end.

End Driver.

End RemoteConditions.

(* --------------------------------------------------------------------- *)
(** ** The browser as the page objects use it                             *)
(* --------------------------------------------------------------------- *)

(** A remote element and a remote browser session are handles. *)
Definition WebElement : Type := nat.
Definition Driver : Type := nat.

(** The conditions the page objects wait for, indexed by what
    [wait.until] returns for them.  [document_ready] is the lambda
    [driver.execute_script("return document.readyState") == "complete"]. *)
Inductive ExpectedCondition : Type -> Type :=
| presence_of_element_located (locator : Locator) : ExpectedCondition WebElement
| presence_of_all_elements_located (locator : Locator)
  : ExpectedCondition (list WebElement)
| element_to_be_clickable (locator : Locator) : ExpectedCondition WebElement
| visibility_of_element_located (locator : Locator) : ExpectedCondition WebElement
| document_ready : ExpectedCondition bool.

(** Selenium, the standard library and the browser behind them, over a
    world [W] (page, clock, file system).  Commands change the world and
    may raise; reading a property of an element or of the session observes
    the world as it is and leaves it alone.  [wait_until] is
    [WebDriverWait(driver, 10).until]. *)
Class Selenium (W : Type) := {
  wait_until : forall {R : Type}, ExpectedCondition R -> W -> Outcome R * W;
  click : WebElement -> W -> Outcome unit * W;
  clear : WebElement -> W -> Outcome unit * W;
  send_keys : WebElement -> string -> W -> Outcome unit * W;
  element_text : W -> WebElement -> Outcome string;
  is_displayed : W -> WebElement -> Outcome bool;
  driver_get : string -> W -> Outcome unit * W;
  driver_title : W -> Outcome string;
  driver_current_url : W -> Outcome string;
  save_screenshot : string -> W -> Outcome unit * W;
  path_exists : W -> string -> bool;
  makedirs : string -> W -> Outcome unit * W;
  time_sleep : Z -> W -> W
}.

(** What a run does that the properties talk about: a wait through the
    engine (with the exception it ended in, if any), a direct sleep, any
    other command sent to the browser. *)
Inductive Event :=
| EvUntil {R : Type} (condition : ExpectedCondition R) (failure : option Exn)
| EvSleep (seconds : Z)
| EvCommand (name : string) (failure : option Exn).

Definition failed_wait (ev : Event) : option Exn :=
  match ev with
  | EvUntil _ failure => failure
  | _ => None
  end.

Definition sleep_of (ev : Event) : option Z :=
  match ev with
  | EvSleep seconds => Some seconds
  | _ => None
  end.

(** The durations of the direct sleeps of a run, in order. *)
Definition direct_sleeps (evs : list Event) : list Z :=
  omap sleep_of evs.

(** Computations of the page objects: they may raise, they change the
    world and they leave a trace of events. *)
Definition M (W A : Type) : Type := W -> Outcome A * W * list Event.

Definition ret {W A} (a : A) : M W A := fun w => (Ok a, w, []).

Definition raise {W A} (e : Exn) : M W A := fun w => (Raise e, w, []).

Definition bind {W A B} (m : M W A) (k : A -> M W B) : M W B :=
  fun w =>
    match m w with
    | (Ok a, w1, evs1) =>
        match k a w1 with
        | (r, w2, evs2) => (r, w2, evs1 ++ evs2)
        end
    | (Raise e, w1, evs1) => (Raise e, w1, evs1)
    end.

(** [try: m  except: handler]: a bare [except] catches every exception. *)
Definition try_except {W A} (m : M W A) (handler : M W A) : M W A :=
  fun w =>
    match m w with
    | (Ok a, w1, evs1) => (Ok a, w1, evs1)
    | (Raise _, w1, evs1) =>
        match handler w1 with
        | (r, w2, evs2) => (r, w2, evs1 ++ evs2)
        end
    end.

(** The monad operations in stdpp's classes, for its [x ← m; k] and
    [m ;; k] notations. *)
#[global] Instance M_ret {W} : MRet (M W) := fun A a => ret a.
#[global] Instance M_bind {W} : MBind (M W) := fun A B k m => bind m k.

Definition result_of {W A} (x : Outcome A * W * list Event) : Outcome A := fst (fst x).
Definition world_of {W A} (x : Outcome A * W * list Event) : W := snd (fst x).
Definition events_of {W A} (x : Outcome A * W * list Event) : list Event := snd x.

Section Primitives.

Context {W : Type} `{Selenium W}.

Definition command {A} (name : string) (c : W -> Outcome A * W) : M W A :=
  fun w =>
    match c w with
    | (r, w1) => (r, w1, [EvCommand name (error_of r)])
    end.

Definition query {A} (q : W -> Outcome A) : M W A :=
  fun w => (q w, w, []).

(** [self.wait.until(condition)]. *)
Definition until {R} (condition : ExpectedCondition R) : M W R :=
  fun w =>
    match wait_until condition w with
    | (r, w1) => (r, w1, [EvUntil condition (error_of r)])
    end.

(** [time.sleep(seconds)]. *)
Definition sleep (seconds : Z) : M W unit :=
  fun w => (Ok tt, time_sleep seconds w, [EvSleep seconds]).

End Primitives.

(** A computation propagates the failures of its waits: whenever one of
    its waits ended in an exception, the computation raises that same
    exception. *)
Definition Propagating {W A} (m : M W A) : Prop :=
  forall w ev e,
    ev ∈ events_of (m w) -> failed_wait ev = Some e ->
    result_of (m w) = Raise e.

(** A computation that never sleeps directly. *)
Definition Sleepless {W A} (m : M W A) : Prop :=
  forall w, direct_sleeps (events_of (m w)) = [].

(** A computation whose only direct sleep is its last step, reached only
    when everything before it returned normally. *)
Definition SleepsLast {W A} (seconds : Z) (m : M W A) : Prop :=
  forall w,
    direct_sleeps (events_of (m w))
    = if is_ok (result_of (m w)) then [seconds] else [].

(* --------------------------------------------------------------------- *)
(** ** Page objects                                                       *)
(* --------------------------------------------------------------------- *)

Module BasePage.
Section Methods.

Context {W : Type} `{Selenium W}.

Definition find_element (locator : Locator) : M W WebElement :=
  until (presence_of_element_located locator).

Definition find_elements (locator : Locator) : M W (list WebElement) :=
  until (presence_of_all_elements_located locator).

Definition click_element (locator : Locator) : M W unit :=
  element ← until (element_to_be_clickable locator);
  command "click" (click element).

Definition type_text (locator : Locator) (text : string) : M W unit :=
  element ← find_element locator;
  command "clear" (clear element) ;;
  command "send_keys" (send_keys element text).

Definition get_text (locator : Locator) : M W string :=
  element ← find_element locator;
  query (fun w => element_text w element).

Definition is_element_visible (locator : Locator) : M W bool :=
  try_except
    (element ← until (visibility_of_element_located locator);
     query (fun w => is_displayed w element))
    (mret false).

Definition wait_for_page_load : M W unit :=
  until document_ready ;; mret tt.

Definition get_page_title : M W string := query driver_title.

Definition get_current_url : M W string := query driver_current_url.

Definition take_screenshot (filename : string) : M W unit :=
  exists_ ← query (fun w => Ok (path_exists w "screenshots"));
  (if negb exists_ then command "makedirs" (makedirs "screenshots") else mret tt) ;;
  command "save_screenshot"
    (save_screenshot ("screenshots/" ++ filename ++ ".png")).

(** [[result.text for result in results if result.text]]: for each
    result the text is read for the test and, when it is not empty, read
    again for the list.  Here both reads are answered by the same world;
    [LivePage.nonempty_texts] is the comprehension on a page that may
    change between them. *)
Fixpoint nonempty_texts (results : list WebElement) : M W (list string) :=
  match results with
  | [] => mret []
  | result :: rest =>
      shown ← query (fun w => element_text w result);
      if String.eqb shown "" then nonempty_texts rest
      else
        text ← query (fun w => element_text w result);
        texts ← nonempty_texts rest;
        mret (text :: texts)
  end.

End Methods.
End BasePage.

Module GooglePage.
Section Methods.

Context {W : Type} `{Selenium W}.

Definition SEARCH_BOX : Locator := (NAME, "q").
Definition SEARCH_BUTTON : Locator := (NAME, "btnK").
Definition SEARCH_RESULTS : Locator := (CSS_SELECTOR, "h3").
Definition GMAIL_LINK : Locator := (LINK_TEXT, "Gmail").
Definition IMAGES_LINK : Locator := (LINK_TEXT, "Images").
Definition url : string := "https://www.google.com".

Definition navigate_to : M W unit :=
  command "get" (driver_get url) ;;
  BasePage.wait_for_page_load.

Definition search (query : string) : M W unit :=
  BasePage.type_text SEARCH_BOX query ;;
  BasePage.click_element SEARCH_BUTTON ;;
  sleep 2.

Definition get_search_results : M W (list string) :=
  results ← BasePage.find_elements SEARCH_RESULTS;
  BasePage.nonempty_texts results.

Definition click_gmail : M W unit := BasePage.click_element GMAIL_LINK.

Definition click_images : M W unit := BasePage.click_element IMAGES_LINK.

Definition is_search_box_visible : M W bool :=
  BasePage.is_element_visible SEARCH_BOX.

End Methods.
End GooglePage.

Module FacebookPage.
Section Methods.

Context {W : Type} `{Selenium W}.

Definition EMAIL_FIELD : Locator := (NAME, "email").
Definition PASSWORD_FIELD : Locator := (NAME, "pass").
Definition LOGIN_BUTTON : Locator := (NAME, "login").
Definition FORGOT_PASSWORD_LINK : Locator := (LINK_TEXT, "Forgotten password?").
Definition CREATE_ACCOUNT_LINK : Locator := (LINK_TEXT, "Create new account").
Definition url : string := "https://www.facebook.com".

Definition navigate_to : M W unit :=
  command "get" (driver_get url) ;;
  BasePage.wait_for_page_load.

Definition enter_email (email : string) : M W unit :=
  BasePage.type_text EMAIL_FIELD email.

Definition enter_password (password : string) : M W unit :=
  BasePage.type_text PASSWORD_FIELD password.

Definition click_login : M W unit := BasePage.click_element LOGIN_BUTTON.

Definition login (email password : string) : M W unit :=
  enter_email email ;;
  enter_password password ;;
  click_login ;;
  sleep 2.

Definition click_forgot_password : M W unit :=
  BasePage.click_element FORGOT_PASSWORD_LINK.

Definition click_create_account : M W unit :=
  BasePage.click_element CREATE_ACCOUNT_LINK.

Definition is_email_field_visible : M W bool :=
  BasePage.is_element_visible EMAIL_FIELD.

End Methods.
End FacebookPage.

Module AmazonPage.
Section Methods.

Context {W : Type} `{Selenium W}.

Definition SEARCH_BOX : Locator := (ID, "twotabsearchtextbox").
Definition SEARCH_BUTTON : Locator := (ID, "nav-search-submit-button").
Definition SEARCH_RESULTS : Locator := (CSS_SELECTOR, "h2 a span").
Definition CART_BUTTON : Locator := (ID, "nav-cart").
Definition ACCOUNT_LINK : Locator := (ID, "nav-link-accountList").
Definition url : string := "https://www.amazon.com".

Definition navigate_to : M W unit :=
  command "get" (driver_get url) ;;
  BasePage.wait_for_page_load.

Definition search_product (product_name : string) : M W unit :=
  BasePage.type_text SEARCH_BOX product_name ;;
  BasePage.click_element SEARCH_BUTTON ;;
  sleep 2.

Definition get_product_results : M W (list string) :=
  results ← BasePage.find_elements SEARCH_RESULTS;
  BasePage.nonempty_texts results.

Definition click_cart : M W unit := BasePage.click_element CART_BUTTON.

Definition click_account : M W unit := BasePage.click_element ACCOUNT_LINK.

Definition is_search_box_visible : M W bool :=
  BasePage.is_element_visible SEARCH_BOX.

End Methods.
End AmazonPage.

(* --------------------------------------------------------------------- *)
(** ** The result lists on a live page                                    *)
(* --------------------------------------------------------------------- *)

(** [result.text] is a property of a remote element: every evaluation
    is a call to the browser, answered from the page as it is when the
    call arrives, and the page may have changed since the call before. *)
Class LiveReads (W : Type) := {
  read_text : WebElement -> W -> Outcome string * W
}.

Module LivePage.
Section Methods.

Context {W : Type} `{Selenium W} `{LiveReads W}.

(** One evaluation of a property of a remote element. *)
Definition read {A} (c : W -> Outcome A * W) : M W A :=
  fun w =>
    match c w with
    | (r, w1) => (r, w1, [])
    end.

(** [[result.text for result in results if result.text]]: the condition
    evaluates [result.text]; when the value is not empty, the element
    expression evaluates [result.text] again, and the value of this
    second evaluation is what goes into the list. *)
Fixpoint nonempty_texts (results : list WebElement) : M W (list string) :=
  match results with
  | [] => mret []
  | result :: rest =>
      shown ← read (read_text result);
      if String.eqb shown "" then nonempty_texts rest
      else
        text ← read (read_text result);
        texts ← nonempty_texts rest;
        mret (text :: texts)
  end.

(** [GooglePage.get_search_results]. *)
Definition get_search_results : M W (list string) :=
  results ← BasePage.find_elements GooglePage.SEARCH_RESULTS;
  nonempty_texts results.

(** [AmazonPage.get_product_results]. *)
Definition get_product_results : M W (list string) :=
  results ← BasePage.find_elements AmazonPage.SEARCH_RESULTS;
  nonempty_texts results.

End Methods.

(** The page that stands still: a read answers from the world and leaves
    it as it is. *)
Definition still {W : Type} `{Selenium W} : LiveReads W :=
  {| read_text result w := (element_text w result, w) |}.

End LivePage.

(** Every method of the four page classes, indexed by what it returns. *)
Inductive PageOp : Type -> Type :=
| base_find_element (locator : Locator) : PageOp WebElement
| base_find_elements (locator : Locator) : PageOp (list WebElement)
| base_click_element (locator : Locator) : PageOp unit
| base_type_text (locator : Locator) (text : string) : PageOp unit
| base_get_text (locator : Locator) : PageOp string
| base_is_element_visible (locator : Locator) : PageOp bool
| base_wait_for_page_load : PageOp unit
| base_get_page_title : PageOp string
| base_get_current_url : PageOp string
| base_take_screenshot (filename : string) : PageOp unit
| google_navigate_to : PageOp unit
| google_search (query : string) : PageOp unit
| google_get_search_results : PageOp (list string)
| google_click_gmail : PageOp unit
| google_click_images : PageOp unit
| google_is_search_box_visible : PageOp bool
| facebook_navigate_to : PageOp unit
| facebook_enter_email (email : string) : PageOp unit
| facebook_enter_password (password : string) : PageOp unit
| facebook_click_login : PageOp unit
| facebook_login (email password : string) : PageOp unit
| facebook_click_forgot_password : PageOp unit
| facebook_click_create_account : PageOp unit
| facebook_is_email_field_visible : PageOp bool
| amazon_navigate_to : PageOp unit
| amazon_search_product (product_name : string) : PageOp unit
| amazon_get_product_results : PageOp (list string)
| amazon_click_cart : PageOp unit
| amazon_click_account : PageOp unit
| amazon_is_search_box_visible : PageOp bool.

Definition perform {W : Type} `{Selenium W} {R : Type} (op : PageOp R) : M W R :=
  match op in PageOp T return M W T with
  | base_find_element locator => BasePage.find_element locator
  | base_find_elements locator => BasePage.find_elements locator
  | base_click_element locator => BasePage.click_element locator
  | base_type_text locator text => BasePage.type_text locator text
  | base_get_text locator => BasePage.get_text locator
  | base_is_element_visible locator => BasePage.is_element_visible locator
  | base_wait_for_page_load => BasePage.wait_for_page_load
  | base_get_page_title => BasePage.get_page_title
  | base_get_current_url => BasePage.get_current_url
  | base_take_screenshot filename => BasePage.take_screenshot filename
  | google_navigate_to => GooglePage.navigate_to
  | google_search query => GooglePage.search query
  | google_get_search_results => GooglePage.get_search_results
  | google_click_gmail => GooglePage.click_gmail
  | google_click_images => GooglePage.click_images
  | google_is_search_box_visible => GooglePage.is_search_box_visible
  | facebook_navigate_to => FacebookPage.navigate_to
  | facebook_enter_email email => FacebookPage.enter_email email
  | facebook_enter_password password => FacebookPage.enter_password password
  | facebook_click_login => FacebookPage.click_login
  | facebook_login email password => FacebookPage.login email password
  | facebook_click_forgot_password => FacebookPage.click_forgot_password
  | facebook_click_create_account => FacebookPage.click_create_account
  | facebook_is_email_field_visible => FacebookPage.is_email_field_visible
  | amazon_navigate_to => AmazonPage.navigate_to
  | amazon_search_product product_name => AmazonPage.search_product product_name
  | amazon_get_product_results => AmazonPage.get_product_results
  | amazon_click_cart => AmazonPage.click_cart
  | amazon_click_account => AmazonPage.click_account
  | amazon_is_search_box_visible => AmazonPage.is_search_box_visible
  end.

(** The methods that wrap their wait in [try ... except: return False]:
    [is_element_visible] and the three checks that call it. *)
Definition catches {R} (op : PageOp R) : bool :=
  match op with
  | base_is_element_visible _
  | google_is_search_box_visible
  | facebook_is_email_field_visible
  | amazon_is_search_box_visible => true
  | _ => false
  end.

(** The methods whose body ends in [time.sleep(2)]. *)
Definition sleeps {R} (op : PageOp R) : bool :=
  match op with
  | google_search _
  | facebook_login _ _
  | amazon_search_product _ => true
  | _ => false
  end.

(* --------------------------------------------------------------------- *)
(** ** The test fixture                                                   *)
(* --------------------------------------------------------------------- *)

(** What [setup_method] and [teardown_method] ask of selenium and of
    webdriver_manager. *)
Class Chrome (W : Type) := {
  chromedriver_install : W -> Outcome unit * W;
  new_chrome : W -> Outcome Driver * W;
  execute_script : Driver -> string -> W -> Outcome unit * W;
  driver_quit : Driver -> W -> Outcome unit * W
}.

Module TestBase.

(** The values that the attributes of a test instance hold. *)
Inductive Attr :=
| ADriver (d : Driver)
| AGooglePage (d : Driver)
| AFacebookPage (d : Driver)
| AAmazonPage (d : Driver).

Section Methods.

Context {W : Type} `{Chrome W}.

Definition hasattr (self : gmap string Attr) (name : string) : bool :=
  bool_decide (is_Some (self !! name)).

(** [self.name]: AttributeError when the instance has no such attribute. *)
Definition getattr (self : gmap string Attr) (name : string) : M W Attr :=
  match self !! name with
  | Some a => mret a
  | None => raise AttributeError
  end.

(** [obj.quit()]: only a driver has the method. *)
Definition call_quit (obj : Attr) : M W unit :=
  match obj with
  | ADriver d => command "quit" (driver_quit d)
  | _ => raise AttributeError
  end.

Definition hide_webdriver : string :=
  "Object.defineProperty(navigator, 'webdriver', {get: () => undefined})".

(** [setup_method]: the attributes are assigned one by one, so an
    exception leaves the instance with those assigned before it.  The
    result is the outcome, the instance, the world and the events. *)
Definition setup_method (self : gmap string Attr) (w : W)
  : Outcome unit * gmap string Attr * W * list Event :=
  match chromedriver_install w with
  | (Raise e, w1) => (Raise e, self, w1, [EvCommand "install" (Some e)])
  | (Ok _, w1) =>
      match new_chrome w1 with
      | (Raise e, w2) =>
          (Raise e, self, w2,
           [EvCommand "install" None; EvCommand "Chrome" (Some e)])
      | (Ok d, w2) =>
          let self1 := <["driver" := ADriver d]> self in
          match execute_script d hide_webdriver w2 with
          | (Raise e, w3) =>
              (Raise e, self1, w3,
               [EvCommand "install" None; EvCommand "Chrome" None;
                EvCommand "execute_script" (Some e)])
          | (Ok _, w3) =>
              let self2 := <["google_page" := AGooglePage d]> self1 in
              let self3 := <["facebook_page" := AFacebookPage d]> self2 in
              let self4 := <["amazon_page" := AAmazonPage d]> self3 in
              (Ok tt, self4, w3,
               [EvCommand "install" None; EvCommand "Chrome" None;
                EvCommand "execute_script" None])
          end
      end
  end.

Definition teardown_method (self : gmap string Attr) : M W unit :=
  if hasattr self "driver" then
    driver ← getattr self "driver";
    call_quit driver
  else mret tt.

End Methods.
End TestBase.

(* --------------------------------------------------------------------- *)
(** ** A scripted browser for the examples                                *)
(* --------------------------------------------------------------------- *)

Module Scripted.

Local Open Scope Z_scope.

(** A world whose answers are written down in advance: the exception
    every wait ends in (if any), the elements a wait for all elements
    finds, the text of each element, the exception that starting Chrome
    raises (if any), and a clock. *)
Record World := {
  waits_raise : option Exn;
  found : list WebElement;
  texts : list (WebElement * string);
  chrome_raises : option Exn;
  clock : Z
}.

Definition answer {R} (c : ExpectedCondition R) (w : World) : R :=
  match c in ExpectedCondition T return T with
  | presence_of_element_located _ => 0%nat
  | presence_of_all_elements_located _ => found w
  | element_to_be_clickable _ => 0%nat
  | visibility_of_element_located _ => 0%nat
  | document_ready => true
  end.

Fixpoint text_in (l : list (WebElement * string)) (e : WebElement) : string :=
  match l with
  | [] => ""
  | (e', s) :: rest => if Nat.eqb e e' then s else text_in rest e
  end.

#[global] Instance browser : Selenium World := {|
  wait_until R c w :=
    match waits_raise w with
    | Some e => (Raise e, w)
    | None => (Ok (answer c w), w)
    end;
  click _ w := (Ok tt, w);
  clear _ w := (Ok tt, w);
  send_keys _ _ w := (Ok tt, w);
  element_text w e := Ok (text_in (texts w) e);
  is_displayed _ _ := Ok true;
  driver_get _ w := (Ok tt, w);
  driver_title _ := Ok "Google";
  driver_current_url _ := Ok "https://www.google.com";
  save_screenshot _ w := (Ok tt, w);
  path_exists _ _ := true;
  makedirs _ w := (Ok tt, w);
  time_sleep seconds w :=
    {| waits_raise := waits_raise w; found := found w; texts := texts w;
       chrome_raises := chrome_raises w; clock := clock w + seconds |}
|}.

#[global] Instance chrome : Chrome World := {|
  chromedriver_install w := (Ok tt, w);
  new_chrome w :=
    match chrome_raises w with
    | Some e => (Raise e, w)
    | None => (Ok 7%nat, w)
    end;
  execute_script _ _ w := (Ok tt, w);
  driver_quit _ w := (Ok tt, w)
|}.

(** A page that answers every wait at once. *)
Definition ready : World :=
  {| waits_raise := None;
     found := [1; 2; 3]%nat;
     texts := [(1, "Selenium"); (2, ""); (3, "WebDriver")]%nat;
     chrome_raises := None;
     clock := 0 |}.

(** A page on which every wait times out. *)
Definition stuck : World :=
  {| waits_raise := Some TimeoutException;
     found := [];
     texts := [];
     chrome_raises := None;
     clock := 0 |}.

(** A machine on which Chrome does not start. *)
Definition no_chrome : World :=
  {| waits_raise := None;
     found := [];
     texts := [];
     chrome_raises := Some WebDriverException;
     clock := 0 |}.

End Scripted.

(* --------------------------------------------------------------------- *)
(** ** Pages for the examples                                             *)
(* --------------------------------------------------------------------- *)

Module Scenarios.

Import Conditions WaitEngine.
Local Open Scope Z_scope.

(** The search box of the Google page. *)
Definition search_box : Conditions.WebElement :=
  {| ref := 1; tag := "textarea";
     attributes := <["name" := "q"]> (<["value" := "Google Search"]> ∅);
     text := ""; enabled := true; displayed := true |}.

(** A second field that answers the same locator. *)
Definition second_box : Conditions.WebElement :=
  {| ref := 2; tag := "input";
     attributes := <["name" := "q"]> (<["value" := "something else"]> ∅);
     text := ""; enabled := true; displayed := false |}.

(** A page on which the locator [(By.NAME, "q")] has two matches. *)
Definition ambiguous_page : Page := [search_box; second_box].

(** A page that gets its search box 600 ms into the wait. *)
Definition page_at (t : Z) : Page :=
  if t <? 600 then [] else [search_box].



Definition presence_of_search_box (t : Z) : ConditionOutcome Conditions.WebElement :=
  presence simple_matches (NAME, "q") (page_at t).

Definition scenario_wait : WaitSpec :=
  {| timeout := 2000; pollInterval := 250;
     ignoredErrorKinds := default_ignored; message := None |}.

End Scenarios.

(* --------------------------------------------------------------------- *)
(** ** Traces of commands                                                 *)
(* --------------------------------------------------------------------- *)

(** A wait for clickability that returned normally. *)
Definition clickable_found (ev : Event) : bool :=
  match ev with
  | EvUntil c None =>
      match c with
      | element_to_be_clickable _ => true
      | _ => false
      end
  | _ => false
  end.

(** A wait for presence that returned normally. *)
Definition presence_found (ev : Event) : bool :=
  match ev with
  | EvUntil c None =>
      match c with
      | presence_of_element_located _ => true
      | _ => false
      end
  | _ => false
  end.

(** A [clear] that returned normally. *)
Definition cleared (ev : Event) : bool :=
  match ev with
  | EvCommand name None => String.eqb name "clear"
  | _ => false
  end.

(** What may follow what in a trace: a click comes right after a wait
    for clickability that returned normally, a [clear] right after a wait
    for presence that returned normally, [send_keys] right after a
    [clear] that returned normally; everything else may come anywhere. *)
Definition allowed (prev : option Event) (ev : Event) : bool :=
  match ev with
  | EvCommand name _ =>
      if String.eqb name "click" then from_option clickable_found false prev
      else if String.eqb name "clear" then from_option presence_found false prev
      else if String.eqb name "send_keys" then from_option cleared false prev
      else true
  | _ => true
  end.

Fixpoint guarded (prev : option Event) (evs : list Event) : bool :=
  match evs with
  | [] => true
  | ev :: rest => allowed prev ev && guarded (Some ev) rest
  end.

(** A computation all of whose traces are guarded. *)
Definition Guarded {W A} (m : M W A) : Prop :=
  forall w, guarded None (events_of (m w)) = true.

(** A computation all of whose events satisfy [P]. *)
Definition Emits {W A} (P : Event -> Prop) (m : M W A) : Prop :=
  forall w, Forall P (events_of (m w)).

(** The outcomes of the commands of a given name in a trace, in order. *)
Definition commands_named (name : string) (evs : list Event) : list (option Exn) :=
  omap (fun ev =>
          match ev with
          | EvCommand n failure => if String.eqb n name then Some failure else None
          | _ => None
          end) evs.

(** Python's truth value of a string: non-empty. *)
Definition nonempty (s : string) : bool := negb (String.eqb s "").


(* --------------------------------------------------------------------- *)
(** ** A browser with a stale element                                     *)
(* --------------------------------------------------------------------- *)

Module Stale.

Import Scripted.



End Stale.

(* --------------------------------------------------------------------- *)
(** ** A page that hides its results                                      *)
(* --------------------------------------------------------------------- *)

Module Hiding.

Import Scripted.

(** The scripted page, hiding its result list while the test reads it:
    the first read of a text is answered from the titles on show; by the
    next read the list is hidden, and the text of a hidden element is
    the empty string. *)
Definition hiding : LiveReads World := {|
  read_text result w :=
    (Ok (text_in (texts w) result),
     {| waits_raise := waits_raise w; found := found w; texts := [];
        chrome_raises := chrome_raises w; clock := clock w |})
|}.

(** The scripted page once its results are hidden. *)
Definition hidden_results : World :=
  {| waits_raise := None;
     found := [1; 2; 3]%nat;
     texts := [];
     chrome_raises := None;
     clock := 0%Z |}.

End Hiding.



(* --------------------------------------------------------------------- *)
(** ** The tests and the demonstration of [01_page_object_model.py]       *)
(* --------------------------------------------------------------------- *)

(** Queries that go to the driver directly, without a wait:
    [driver.find_element] and [element.get_attribute] (None when the
    element has no such attribute). *)
Class DirectQueries (W : Type) := {
  driver_find_element : Locator -> W -> Outcome WebElement * W;
  element_get_attribute : W -> WebElement -> string -> Outcome (option string)
}.

Module PageObjectModel.

(** What a test can end in besides the exceptions of the library: a
    failed [assert], with its message. *)
Inductive PyExn :=
| Library (e : Exn)
| AssertionError (message : string).

Inductive Verdict (A : Type) :=
| Passed (value : A)
| Errored (e : PyExn).

Arguments Passed {A} value.
Arguments Errored {A} e.

(** Computations of the tests. *)
Definition T (W A : Type) : Type := W -> Verdict A * W * list Event.

Definition tret {W A} (a : A) : T W A := fun w => (Passed a, w, []).

Definition tbind {W A B} (m : T W A) (k : A -> T W B) : T W B :=
  fun w =>
    match m w with
    | (Passed a, w1, evs1) =>
        match k a w1 with
        | (r, w2, evs2) => (r, w2, evs1 ++ evs2)
        end
    | (Errored e, w1, evs1) => (Errored e, w1, evs1)
    end.

#[global] Instance T_ret {W} : MRet (T W) := fun A a => tret a.
#[global] Instance T_bind {W} : MBind (T W) := fun A B k m => tbind m k.

(** A call into the page objects or the library. *)
Definition lift {W A} (m : M W A) : T W A :=
  fun w =>
    match m w with
    | (Ok a, w1, evs) => (Passed a, w1, evs)
    | (Raise e, w1, evs) => (Errored (Library e), w1, evs)
    end.

(** [assert condition, message]. *)
Definition assert_that {W} (condition : bool) (message : string) : T W unit :=
  fun w =>
    if condition then (Passed tt, w, [])
    else (Errored (AssertionError message), w, []).

Definition verdict_of {W A} (x : Verdict A * W * list Event) : Verdict A :=
  fst (fst x).

Section Tests.

Context {W : Type} `{Selenium W} `{Chrome W} `{DirectQueries W}.

(** The test methods, on an instance whose page objects [setup_method]
    has built; the [print] calls are left out. *)
Definition test_google_search : T W unit :=
  lift GooglePage.navigate_to ;;
  visible ← lift GooglePage.is_search_box_visible;
  assert_that visible "Search box should be visible" ;;
  lift (GooglePage.search "Selenium automation testing") ;;
  results ← lift GooglePage.get_search_results;
  assert_that (0 <? length results)%nat "Should have search results" ;;
  lift (BasePage.take_screenshot "google_search_results").

Definition test_facebook_login_form : T W unit :=
  lift FacebookPage.navigate_to ;;
  visible ← lift FacebookPage.is_email_field_visible;
  assert_that visible "Email field should be visible" ;;
  lift (FacebookPage.enter_email "test@example.com") ;;
  lift (FacebookPage.enter_password "testpassword") ;;
  element ← lift (command "find_element"
                    (driver_find_element FacebookPage.EMAIL_FIELD));
  email_value ← lift (query (fun w => element_get_attribute w element "value"));
  assert_that (bool_decide (email_value = Some "test@example.com"%string))
    "Email should be entered correctly" ;;
  lift (BasePage.take_screenshot "facebook_login_form").

Definition test_amazon_product_search : T W unit :=
  lift AmazonPage.navigate_to ;;
  visible ← lift AmazonPage.is_search_box_visible;
  assert_that visible "Search box should be visible" ;;
  lift (AmazonPage.search_product "laptop") ;;
  results ← lift AmazonPage.get_product_results;
  assert_that (0 <? length results)%nat "Should have product results" ;;
  lift (BasePage.take_screenshot "amazon_search_results").

(** The page operations of [demonstrate_pom_pattern], after the driver
    and the page objects are there. *)
Definition demonstration : M W unit :=
  GooglePage.navigate_to ;;
  GooglePage.search "Page Object Model Selenium" ;;
  _ ← GooglePage.get_search_results;
  FacebookPage.navigate_to ;;
  FacebookPage.enter_email "demo@example.com" ;;
  AmazonPage.navigate_to ;;
  AmazonPage.search_product "smartphone" ;;
  BasePage.take_screenshot "pom_demo_google" ;;
  BasePage.take_screenshot "pom_demo_facebook" ;;
  BasePage.take_screenshot "pom_demo_amazon".

(** [demonstrate_pom_pattern]: everything happens inside one [try]; the
    [except Exception] branch prints and goes on; the [finally] branch
    quits the driver when the local variable [driver] is bound, that is,
    when [webdriver.Chrome] has returned.  An exception of [quit] leaves
    the function. *)
Definition demonstrate_pom_pattern : M W unit :=
  fun w =>
    match command "install" chromedriver_install w with
    | (Raise _, w1, evs1) => (Ok tt, w1, evs1)
    | (Ok _, w1, evs1) =>
        match command "Chrome" new_chrome w1 with
        | (Raise _, w2, evs2) => (Ok tt, w2, evs1 ++ evs2)
        | (Ok driver, w2, evs2) =>
            match try_except
                    (command "execute_script"
                       (execute_script driver TestBase.hide_webdriver) ;;
                     demonstration)
                    (mret tt) w2 with
            | (_, w3, evs3) =>
                match command "quit" (driver_quit driver) w3 with
                | (r, w4, evs4) => (r, w4, evs1 ++ evs2 ++ evs3 ++ evs4)
                end
            end
        end
    end.

(** [main]: the demonstration inside [try ... except Exception]. *)
Definition main : M W unit :=
  try_except demonstrate_pom_pattern (mret tt).

End Tests.

End PageObjectModel.

(* --------------------------------------------------------------------- *)
(** ** More scripted browsers                                             *)
(* --------------------------------------------------------------------- *)

Module Hidden.

Import Scripted.

(** The scripted browser on a page that loads but never shows the fields:
    the waits for visibility time out, every other wait returns.  It is
    not an instance: the runs that use it name it. *)
Definition hidden_browser : Selenium World := {|
  wait_until R c w :=
    match c in ExpectedCondition T return Outcome T * World with
    | visibility_of_element_located _ => (Raise TimeoutException, w)
    | other => (Ok (answer other w), w)
    end;
  click _ w := (Ok tt, w);
  clear _ w := (Ok tt, w);
  send_keys _ _ w := (Ok tt, w);
  element_text w e := Ok (text_in (texts w) e);
  is_displayed _ _ := Ok true;
  driver_get _ w := (Ok tt, w);
  driver_title _ := Ok "Google"%string;
  driver_current_url _ := Ok "https://www.google.com"%string;
  save_screenshot _ w := (Ok tt, w);
  path_exists _ _ := true;
  makedirs _ w := (Ok tt, w);
  time_sleep _ w := w
|}.

(** Direct queries on the scripted page: the e-mail field is element 5
    and holds what the test typed. *)
#[global] Instance direct : DirectQueries World := {|
  driver_find_element _ w := (Ok 5%nat, w);
  element_get_attribute _ _ _ := Ok (Some "test@example.com"%string)
|}.

End Hidden.




(** A test all of whose events satisfy [P]. *)
Definition TEmits {W A} (P : Event -> Prop) (m : PageObjectModel.T W A) : Prop :=
  forall w, Forall P (snd (m w)).

(** An event that neither creates nor quits a browser. *)
Definition keeps_browser (ev : Event) : bool :=
  match ev with
  | EvCommand name _ =>
      negb (String.eqb name "quit") && negb (String.eqb name "Chrome")
  | _ => true
  end.

(** An event that is neither a click nor a direct sleep. *)
Definition quiet (ev : Event) : bool :=
  match ev with
  | EvSleep _ => false
  | EvCommand name _ => negb (String.eqb name "click")
  | EvUntil _ _ => true
  end.



(* --------------------------------------------------------------------- *)
(** ** The demonstrations of [01_wait_strategies.py]                      *)
(* --------------------------------------------------------------------- *)

Module WaitStrategies.

(** [WebDriverWait(driver, seconds)] and
    [WebDriverWait(driver, timeout=seconds, poll_frequency=poll)]; [None]
    when no poll frequency is given. *)
Record LessonWait := {
  seconds : Z;
  poll_frequency_ms : option Z
}.

(** The closures of [demonstrate_custom_wait_conditions]. *)
Inductive CustomCondition :=
| has_text (locator : Locator) (text : string)
| minimum_links (min_links : Z)
| enabled_and_visible (locator : Locator).

(** What a closure computes on the page of one tick. *)
Definition closure_of (c : CustomCondition)
    (matches : Locator -> Conditions.WebElement -> bool)
  : Conditions.Page -> Outcome bool :=
  match c with
  | has_text locator text => Conditions.element_has_text matches locator text
  | minimum_links min_links => Conditions.page_has_minimum_links matches min_links
  | enabled_and_visible locator =>
      Conditions.element_is_enabled_and_visible matches locator
  end.

(** Everything the lesson waits for, indexed by what [until] returns. *)
Inductive Awaited : Type -> Type :=
| expected {R : Type} (c : ExpectedCondition R) : Awaited R
| title_contains (title : string) : Awaited bool
| url_contains (url : string) : Awaited bool
| element_to_be_selected (locator : Locator) : Awaited bool
| custom (c : CustomCondition) : Awaited bool.

(** What the lesson asks of selenium beyond the page objects:
    [driver.implicitly_wait(seconds)] and [wait.until(condition, message)]
    for a wait of the lesson's own making. *)
Class Lesson (W : Type) := {
  driver_implicitly_wait : Z -> W -> Outcome unit * W;
  lesson_until : forall {R : Type},
      LessonWait -> Awaited R -> option string -> W -> Outcome R * W
}.

(** [try: m  except TimeoutException: handler]: any other exception goes
    on to the caller. *)
Definition except_timeout {W A} (m handler : M W A) : M W A :=
  fun w =>
    match m w with
    | (Raise TimeoutException, w1, evs1) =>
        match handler w1 with
        | (r, w2, evs2) => (r, w2, evs1 ++ evs2)
        end
    | other => other
    end.

Section Demonstrations.

Context {W : Type} `{Selenium W} `{Chrome W} `{DirectQueries W} `{Lesson W}.

Definition wait_until_with {R} (wait : LessonWait) (condition : Awaited R)
    (message : option string) : M W R :=
  command "until" (lesson_until wait condition message).

Definition ten_seconds : LessonWait :=
  {| seconds := 10; poll_frequency_ms := None |}.

(** [setup_driver]: the driver is returned only after the script ran. *)
Definition setup_driver : M W Driver :=
  command "install" chromedriver_install ;;
  driver ← command "Chrome" new_chrome;
  command "execute_script" (execute_script driver TestBase.hide_webdriver) ;;
  mret driver.

(** The demonstrations.  Each body runs inside [try ... except Exception]
    whose handler prints; the [print] calls and the readings of the clock
    are left out. *)
Definition demonstrate_implicit_wait : M W unit :=
  try_except
    (command "implicitly_wait(10)" (driver_implicitly_wait 10) ;;
     command "get" (driver_get "https://www.google.com") ;;
     _ ← command "find_element" (driver_find_element (NAME, "q"));
     command "implicitly_wait(0)" (driver_implicitly_wait 0))
    (mret tt).

Definition demonstrate_explicit_wait : M W unit :=
  try_except
    (command "get" (driver_get "https://www.google.com") ;;
     search_box ← wait_until_with ten_seconds
                    (expected (presence_of_element_located (NAME, "q"))) None;
     _ ← wait_until_with ten_seconds
           (expected (element_to_be_clickable (NAME, "btnK"))) None;
     command "send_keys" (send_keys search_box "explicit wait demo"))
    (mret tt).

Definition demonstrate_fluent_wait : M W unit :=
  let wait := {| seconds := 10; poll_frequency_ms := Some 500%Z |} in
  try_except
    (command "get" (driver_get "https://www.facebook.com") ;;
     _ ← wait_until_with wait
           (expected (presence_of_element_located (NAME, "email")))
           (Some "Email field not found within 10 seconds"%string);
     _ ← wait_until_with wait
           (expected (presence_of_element_located (NAME, "pass")))
           (Some "Password field not found within 10 seconds"%string);
     mret tt)
    (mret tt).

Definition demonstrate_expected_conditions : M W unit :=
  try_except
    (command "get" (driver_get "https://www.amazon.com") ;;
     _ ← wait_until_with ten_seconds (title_contains "Amazon") None;
     _ ← wait_until_with ten_seconds (url_contains "amazon") None;
     _ ← wait_until_with ten_seconds (expected document_ready) None;
     _ ← wait_until_with ten_seconds
           (expected (visibility_of_element_located (ID, "twotabsearchtextbox")))
           None;
     _ ← wait_until_with ten_seconds
           (expected (presence_of_element_located (ID, "nav-main"))) None;
     _ ← wait_until_with ten_seconds
           (expected (element_to_be_clickable (ID, "nav-search-submit-button")))
           None;
     mret tt)
    (mret tt).

Definition demonstrate_custom_wait_conditions : M W unit :=
  try_except
    (command "get" (driver_get "https://www.google.com") ;;
     _ ← wait_until_with ten_seconds (custom (has_text (NAME, "q") "Google")) None;
     _ ← wait_until_with ten_seconds (custom (minimum_links 10%Z)) None;
     _ ← wait_until_with ten_seconds (custom (enabled_and_visible (NAME, "q")))
           None;
     mret tt)
    (mret tt).

Definition demonstrate_wait_timeout_handling : M W unit :=
  let short_wait := {| seconds := 2; poll_frequency_ms := None |} in
  try_except
    (command "get" (driver_get "https://www.google.com") ;;
     except_timeout
       (_ ← wait_until_with short_wait
              (expected (presence_of_element_located (ID, "non-existent-id")))
              None;
        mret tt)
       (mret tt) ;;
     except_timeout
       (_ ← wait_until_with short_wait
              (expected (presence_of_element_located (NAME, "q"))) None;
        mret tt)
       (mret tt) ;;
     _ ← wait_until_with ten_seconds
           (expected (element_to_be_clickable (NAME, "btnK"))) None;
     except_timeout
       (_ ← wait_until_with ten_seconds (element_to_be_selected (NAME, "q")) None;
        mret tt)
       (mret tt))
    (mret tt).

Definition demonstrate_wait_best_practices : M W unit :=
  try_except
    (command "get" (driver_get "https://www.google.com") ;;
     _ ← wait_until_with ten_seconds
           (expected (element_to_be_clickable (NAME, "q"))) None;
     except_timeout
       (_ ← wait_until_with ten_seconds
              (expected (presence_of_element_located (NAME, "q"))) None;
        mret tt)
       (mret tt) ;;
     _ ← wait_until_with ten_seconds (expected document_ready) None;
     _ ← wait_until_with ten_seconds
           (expected (presence_of_element_located (NAME, "q"))) None;
     mret tt)
    (mret tt).

(** The seven demonstrations, in the order of [main]. *)
Definition demonstrations : M W unit :=
  demonstrate_implicit_wait ;;
  demonstrate_explicit_wait ;;
  demonstrate_fluent_wait ;;
  demonstrate_expected_conditions ;;
  demonstrate_custom_wait_conditions ;;
  demonstrate_wait_timeout_handling ;;
  demonstrate_wait_best_practices.

(** [main]: the local variable [driver] is bound only when [setup_driver]
    has returned; the [except Exception] branch prints; the [finally]
    branch quits the driver when the variable is bound.  An exception of
    [quit] leaves the function. *)
Definition main : M W unit :=
  fun w =>
    match setup_driver w with
    | (Raise _, w1, evs1) => (Ok tt, w1, evs1)
    | (Ok driver, w1, evs1) =>
        match try_except demonstrations (mret tt) w1 with
        | (_, w2, evs2) =>
            match command "quit" (driver_quit driver) w2 with
            | (r, w3, evs3) => (r, w3, evs1 ++ evs2 ++ evs3)
            end
        end
    end.

End Demonstrations.

End WaitStrategies.


(** An event of the demonstrations: not a command that sets a driver up
    or quits it. *)
Definition lesson_event (ev : Event) : bool :=
  match ev with
  | EvCommand name _ =>
      negb (bool_decide (name ∈ ["install"; "Chrome"; "execute_script"; "quit"]%string))
  | _ => true
  end.

Module ScriptedLesson.

Import Scripted WaitStrategies.

Definition lesson_answer {R} (c : Awaited R) (w : World) : Outcome R :=
  match c in Awaited T return Outcome T with
  | expected c' =>
      match c' in ExpectedCondition T' return Outcome T' with
      | presence_of_element_located locator =>
          if bool_decide (locator = (ID, "non-existent-id"%string))
          then Raise TimeoutException
          else Ok 0%nat
      | other => Ok (answer other w)
      end
  | title_contains _ => Ok true
  | url_contains _ => Ok true
  | element_to_be_selected _ => Raise TimeoutException
  | custom _ => Ok true
  end.

(** The lesson on the scripted browser: the element with the id
    [non-existent-id] never appears and the text field is never selected;
    every other wait returns at once. *)
#[global] Instance lesson : Lesson World := {|
  driver_implicitly_wait _ w := (Ok tt, w);
  lesson_until R _ c _ w := (lesson_answer c w, w)
|}.

(** A session that is lost during the wait for the element that does not
    exist.  It is not an instance: the runs that use it name it. *)
Definition lost_lesson : Lesson World := {|
  driver_implicitly_wait _ w := (Ok tt, w);
  lesson_until R _ c _ w :=
    match c in Awaited T return Outcome T * World with
    | element_to_be_selected _ => (Raise TimeoutException, w)
    | _ => (Raise WebDriverException, w)
    end
|}.

(** A machine on which Chrome starts and the first script fails.  It is
    not an instance: the runs that use it name it. *)
Definition script_fails : Chrome World := {|
  chromedriver_install w := (Ok tt, w);
  new_chrome w := (Ok 7%nat, w);
  execute_script _ _ w := (Raise WebDriverException, w);
  driver_quit _ w := (Ok tt, w)
|}.

(** A page without a search box: the direct lookup raises.  It is not an
    instance: the runs that use it name it. *)
Definition no_search_box : DirectQueries World := {|
  driver_find_element _ w := (Raise NoSuchElementException, w);
  element_get_attribute _ _ _ := Ok None
|}.

End ScriptedLesson.



Module MoreScenarios.

(** A link of the page. *)
Definition link (n : nat) : Conditions.WebElement :=
  {| Conditions.ref := n; Conditions.tag := "a";
     Conditions.attributes := ∅;
     Conditions.text := "link"; Conditions.enabled := true;
     Conditions.displayed := true |}.

End MoreScenarios.


(** The exception a step ended in, if it failed. *)
Definition failure_of (ev : Event) : option Exn :=
  match ev with
  | EvUntil _ failure => failure
  | EvCommand _ failure => failure
  | EvSleep _ => None
  end.

(** A trace without a failed step. *)
Definition clean (evs : list Event) : Prop :=
  Forall (fun ev => failure_of ev = None) evs.

(** A computation that stops at its first failed step and raises what
    that step raised: its trace is clean, or it is a clean trace followed
    by one failed step whose exception is the result. *)
Definition FailStop {W A} (m : M W A) : Prop :=
  forall w,
    clean (events_of (m w)) \/
    exists pre ev e,
      events_of (m w) = pre ++ [ev] /\ clean pre /\
      failure_of ev = Some e /\ result_of (m w) = Raise e.

(* ===================================================================== *)
(** * Part II: properties                                                 *)
(* ===================================================================== *)

(* --------------------------------------------------------------------- *)
(** ** The wait engine                                                    *)
(* --------------------------------------------------------------------- *)

Section EngineFacts.

Import WaitEngine.
Local Open Scope Z_scope.

Context {A : Type}.
Variable description : string.
Variable predicate : Z -> ConditionOutcome A.
Variable cancelled : Z -> bool.
Variable spec : WaitSpec.

Local Abbreviation T := (timeout spec).
Local Abbreviation P := (pollInterval spec).
Local Abbreviation loop := (await_loop description predicate cancelled spec).

(** What the loop does after an outcome that lets it go on. *)
Lemma loop_retry fuel now attempt :
  retries spec (predicate now) = true ->
  loop (S fuel) now attempt =
    if cancelled now then Some (CancelledByCaller now (S attempt), [now])
    else if T <? now then
      Some (TimeoutExceeded {| awaited := description; waited := now;
                               tried := S attempt; note := message spec |},
            [now])
    else match loop fuel (now + P) (S attempt) with
         | Some (r, ticks) => Some (r, now :: ticks)
         | None => None
         end.
Proof.
  intros Hgo. cbn [await_loop].
  destruct (predicate now) as [ | v | e ]; cbn [retries] in Hgo.
  - reflexivity.
  - discriminate.
  - rewrite Hgo. reflexivity.
Qed.

(** What the loop does after an outcome that stops it. *)
Lemma loop_stop fuel now attempt :
  retries spec (predicate now) = false ->
  exists r,
    loop (S fuel) now attempt = Some (r, [now]) /\
    result_elapsed r = now /\ result_attempts r = S attempt /\
    match predicate now with
    | Satisfied v => r = Returned {| outcome := Satisfied v; elapsed := now;
                                     attempts := S attempt |}
    | Failed e => r = Propagated e now (S attempt)
    | Pending => False
    end.
Proof.
  intros Hstop. cbn [await_loop].
  destruct (predicate now) as [ | v | e ]; cbn [retries] in Hstop.
  - discriminate.
  - eexists. repeat split.
  - rewrite Hstop. eexists. repeat split.
Qed.

(** The ticks of a run are one poll interval apart, the result reports
    the start of the last one, and each tick is one attempt. *)
Lemma loop_ticks fuel :
  forall now attempt r ticks,
    loop fuel now attempt = Some (r, ticks) ->
    (forall (i : nat) s, ticks !! i = Some s -> s = now + Z.of_nat i * P) /\
    last ticks = Some (result_elapsed r) /\
    result_attempts r = (attempt + length ticks)%nat.
Proof.
  induction fuel as [ | fuel IH ]; intros now attempt r ticks Hrun.
  - discriminate.
  - assert (Hone : forall r0, Some (r0, [now]) = Some (r, ticks) ->
              result_elapsed r0 = now -> result_attempts r0 = S attempt ->
              (forall (i : nat) s, ticks !! i = Some s -> s = now + Z.of_nat i * P) /\
              last ticks = Some (result_elapsed r) /\
              result_attempts r = (attempt + length ticks)%nat).
    { intros r0 Heq He Ha. injection Heq as -> <-. repeat split.
      - intros [ | i ] s Hs; cbn in Hs; [ | discriminate ].
        injection Hs as <-. lia.
      - cbn. congruence.
      - cbn. lia. }
    destruct (retries spec (predicate now)) eqn:Hgo.
    + rewrite (loop_retry _ _ _ Hgo) in Hrun.
      destruct (cancelled now); [ eapply Hone; eauto | ].
      destruct (T <? now); [ eapply Hone; eauto | ].
      destruct (loop fuel (now + P) (S attempt)) as [ [r' ticks'] | ] eqn:Hrec;
        [ | discriminate ].
      injection Hrun as -> <-.
      destruct (IH _ _ _ _ Hrec) as (Hat & Hlast & Hcount).
      repeat split.
      * intros [ | i ] s Hs; cbn in Hs.
        -- injection Hs as <-. lia.
        -- rewrite (Hat _ _ Hs). lia.
      * destruct ticks' as [ | s0 rest ]; [ discriminate | exact Hlast ].
      * rewrite Hcount. cbn. lia.
    + destruct (loop_stop fuel now attempt Hgo) as (r0 & Heq & He & Ha & _).
      rewrite Heq in Hrun. eapply Hone; eauto.
Qed.

(** With a positive poll interval the loop ends within its fuel. *)
Lemma loop_total fuel :
  forall now attempt,
    0 < P -> now <= T + P -> T - now < (Z.of_nat fuel - 1) * P ->
    exists r ticks, loop fuel now attempt = Some (r, ticks).
Proof.
  induction fuel as [ | fuel IH ]; intros now attempt HP Hnow Hfuel.
  - exfalso. cbn in Hfuel. lia.
  - destruct (retries spec (predicate now)) eqn:Hgo.
    + rewrite (loop_retry _ _ _ Hgo).
      destruct (cancelled now); [ eauto | ].
      destruct (Z.ltb_spec T now); [ eauto | ].
      destruct (IH (now + P) (S attempt)) as (r & ticks & Hrec); [ lia .. | ].
      rewrite Hrec. eauto.
    + destruct (loop_stop fuel now attempt Hgo) as (r0 & Heq & _). eauto.
Qed.

(** A run in which nothing but the deadline can stop the loop. *)
Lemma loop_timeout fuel :
  forall now attempt,
    0 < P -> now <= T + P -> T - now < (Z.of_nat fuel - 1) * P ->
    (forall s, now <= s -> retries spec (predicate s) = true) ->
    (forall s, now <= s -> cancelled s = false) ->
    exists d ticks,
      loop fuel now attempt = Some (TimeoutExceeded d, ticks) /\
      T < waited d <= T + P /\
      (forall s, s ∈ ticks -> s <= T \/ s = waited d).
Proof.
  induction fuel as [ | fuel IH ]; intros now attempt HP Hnow Hfuel Hgo Hcan.
  - exfalso. cbn in Hfuel. lia.
  - rewrite (loop_retry _ _ _ (Hgo now ltac:(lia))).
    rewrite (Hcan now ltac:(lia)).
    destruct (Z.ltb_spec T now) as [ Hlate | Hearly ].
    + eexists _, _. split; [ reflexivity | ]. cbn. split; [ lia | ].
      intros s Hs. apply list_elem_of_singleton in Hs. auto.
    + destruct (IH (now + P) (S attempt)) as (d & ticks & Hrec & Hd & Hticks);
        [ lia | lia | lia | | | ].
      * intros s Hs. apply Hgo. lia.
      * intros s Hs. apply Hcan. lia.
      * rewrite Hrec. eexists _, _. split; [ reflexivity | ].
        split; [ exact Hd | ].
        intros s Hs. apply elem_of_cons in Hs as [ -> | Hs ]; auto.
Qed.

(** A run with a predicate that is Satisfied from [t] on. *)
Lemma loop_success fuel (t : Z) :
  forall now attempt,
    0 < P -> t <= T -> now < t + P -> T - now < (Z.of_nat fuel - 1) * P ->
    (forall s, s < t -> retries spec (predicate s) = true) ->
    (forall s, s < t -> cancelled s = false) ->
    (forall s, t <= s < t + P -> is_satisfied (predicate s) = true) ->
    exists p ticks,
      loop fuel now attempt = Some (Returned p, ticks) /\
      is_satisfied (outcome p) = true /\
      Z.max now t <= elapsed p < t + P.
Proof.
  induction fuel as [ | fuel IH ]; intros now attempt HP Ht Hnow Hfuel Hgo Hcan Hsat.
  - exfalso. cbn in Hfuel. lia.
  - destruct (Z.lt_ge_cases now t) as [ Hbefore | Hafter ].
    + rewrite (loop_retry _ _ _ (Hgo now Hbefore)).
      rewrite (Hcan now Hbefore).
      destruct (Z.ltb_spec T now) as [ Hlate | _ ]; [ lia | ].
      destruct (IH (now + P) (S attempt)) as (p & ticks & Hrec & Hp & He);
        [ lia .. | assumption | assumption | assumption | ].
      rewrite Hrec. eexists _, _. split; [ reflexivity | ].
      split; [ exact Hp | lia ].
    + specialize (Hsat now ltac:(lia)).
      cbn [await_loop].
      destruct (predicate now) as [ | v | e ]; cbn in Hsat; try discriminate.
      eexists _, _. split; [ reflexivity | ]. cbn. split; [ reflexivity | lia ].
Qed.

(** A tick on which the predicate fails fatally is the last one. *)
Lemma loop_fail_fast fuel :
  forall now attempt r ticks,
    loop fuel now attempt = Some (r, ticks) ->
    forall s e,
      s ∈ ticks -> predicate s = Failed e -> ignorable spec e = false ->
      r = Propagated e s (attempt + length ticks) /\ last ticks = Some s.
Proof.
  induction fuel as [ | fuel IH ]; intros now attempt r ticks Hrun s e Hs Hfail Hfatal.
  - discriminate.
  - destruct (retries spec (predicate now)) eqn:Hgo.
    + assert (Hne : s <> now).
      { intros ->. rewrite Hfail in Hgo. cbn in Hgo. congruence. }
      rewrite (loop_retry _ _ _ Hgo) in Hrun.
      destruct (cancelled now).
      { injection Hrun as <- <-. apply list_elem_of_singleton in Hs. contradiction. }
      destruct (T <? now).
      { injection Hrun as <- <-. apply list_elem_of_singleton in Hs. contradiction. }
      destruct (loop fuel (now + P) (S attempt)) as [ [r' ticks'] | ] eqn:Hrec;
        [ | discriminate ].
      injection Hrun as -> <-.
      apply elem_of_cons in Hs as [ -> | Hs ]; [ contradiction | ].
      destruct (IH _ _ _ _ Hrec s e Hs Hfail Hfatal) as (-> & Hlast).
      split.
      * f_equal. cbn. lia.
      * destruct ticks' as [ | s0 rest ]; [ inversion Hs | exact Hlast ].
    + destruct (loop_stop fuel now attempt Hgo) as (r0 & Heq & _ & _ & Hshape).
      rewrite Heq in Hrun. injection Hrun as -> <-.
      apply list_elem_of_singleton in Hs. subst s.
      rewrite Hfail in Hshape. subst r. split; [ | reflexivity ].
      f_equal. cbn. lia.
Qed.

End EngineFacts.

Section EngineClaims.

Import WaitEngine.
Local Open Scope Z_scope.

(** The elapsed time of a finished call is one poll interval for each
    attempt but the last. *)
Lemma await_elapsed {A} description (predicate : Z -> ConditionOutcome A)
    cancelled spec fuel r ticks :
  awaitCondition description predicate cancelled spec fuel = Some (r, ticks) ->
  result_elapsed r = (Z.of_nat (result_attempts r) - 1) * pollInterval spec /\
  length ticks = result_attempts r /\
  last ticks = Some (result_elapsed r).
Proof.
  intros Hrun. unfold awaitCondition in Hrun.
  destruct (loop_ticks _ _ _ _ _ _ _ _ _ Hrun) as (Hat & Hlast & Hcount).
  cbn in Hcount. repeat split; try congruence.
  destruct ticks as [ | s0 rest ]; [ discriminate | ].
  rewrite last_lookup in Hlast. apply Hat in Hlast.
  rewrite Hlast, Hcount. cbn [length Nat.pred]. lia.
Qed.

(** C1, as stated, fails on the two-second wait of
    [demonstrate_wait_timeout_handling], polled every half second, for
    an element that never appears: the tick at 2000 ms starts at the
    deadline, its outcome is Pending and 2000 does not exceed the
    timeout, so the loop sleeps once more; the timeout is raised at
    2500 ms, which is not below T + P, after evaluations that started at
    2000 ms and at 2500 ms. *)
Lemma C1_counterexample :
  0 < pollInterval short_wait <= timeout short_wait /\
  (forall t, is_satisfied (never t) = false) /\
  exists d ticks,
    awaitCondition "presence" never no_cancel short_wait 10
      = Some (TimeoutExceeded d, ticks) /\
    ~ (timeout short_wait <= waited d
       < timeout short_wait + pollInterval short_wait) /\
    ~ Forall (fun s => s < timeout short_wait) ticks.
Proof.
  split; [ cbn; lia | ]. split; [ reflexivity | ].
  eexists _, _. split; [ vm_compute; reflexivity | ].
  split.
  - cbn. lia.
  - intros Hall. rewrite Forall_forall in Hall.
    specialize (Hall 2000). cbn in Hall.
    assert (2000 < 2000) by (apply Hall; set_solver). lia.
Qed.

(** C1 (amended): for every wait specification with 0 < P <= T, if the
    predicate only ever reports Pending or an ignorable failure and no
    cancellation is signalled, awaitCondition raises TimeoutExceeded
    with an elapsed time in (T, T+P], equal to one poll interval per
    attempt before the last; every evaluation tick except the last one
    starts at or before the deadline, and the last starts at the
    reported elapsed time. *)
Theorem C1_timeout_overshoot {A} description
    (predicate : Z -> ConditionOutcome A) cancelled spec fuel :
  0 < pollInterval spec <= timeout spec ->
  timeout spec < (Z.of_nat fuel - 1) * pollInterval spec ->
  (forall s, retries spec (predicate s) = true) ->
  (forall s, cancelled s = false) ->
  exists d ticks,
    awaitCondition description predicate cancelled spec fuel
      = Some (TimeoutExceeded d, ticks) /\
    timeout spec < waited d <= timeout spec + pollInterval spec /\
    waited d = (Z.of_nat (tried d) - 1) * pollInterval spec /\
    last ticks = Some (waited d) /\
    (forall s, s ∈ ticks -> s <= timeout spec \/ s = waited d).
Proof.
  intros HP Hfuel Hgo Hcan.
  destruct (loop_timeout description predicate cancelled spec fuel 0 0)
    as (d & ticks & Hrun & Hd & Hticks); auto; try lia.
  exists d, ticks.
  destruct (await_elapsed _ _ _ _ _ _ _ Hrun) as (He & _ & Hlast).
  repeat split; auto; lia.
Qed.

Lemma C1_timeout_overshoot_witness :
  exists d ticks,
    awaitCondition "presence" never no_cancel short_wait 10
      = Some (TimeoutExceeded d, ticks) /\
    2000 < waited d <= 2500 /\
    waited d = (Z.of_nat (tried d) - 1) * 500 /\
    last ticks = Some (waited d) /\
    (forall s, s ∈ ticks -> s <= 2000 \/ s = waited d).
Proof.
  apply (C1_timeout_overshoot "presence" never no_cancel short_wait 10).
  - cbn. lia.
  - cbn. lia.
  - reflexivity.
  - reflexivity.
Defined.

(** C2: for every wait specification with 0 < P <= T, if the predicate
    is not Satisfied (Pending or an ignorable failure) before the time
    t <= T and Satisfied from t on, awaitCondition returns a successful
    PollResult whose elapsed time lies in [t, t+P).  The scenario of the
    claim (T = 2000 ms, P = 250 ms, presence true from 600 ms) is the
    witness below. *)
Theorem C2_success_within_one_poll {A} description
    (predicate : Z -> ConditionOutcome A) cancelled spec fuel (t : Z) :
  0 < pollInterval spec <= timeout spec ->
  0 <= t <= timeout spec ->
  timeout spec < (Z.of_nat fuel - 1) * pollInterval spec ->
  (forall s, s < t -> retries spec (predicate s) = true) ->
  (forall s, s < t -> cancelled s = false) ->
  (forall s, t <= s < t + pollInterval spec ->
             is_satisfied (predicate s) = true) ->
  exists p ticks,
    awaitCondition description predicate cancelled spec fuel
      = Some (Returned p, ticks) /\
    is_satisfied (outcome p) = true /\
    t <= elapsed p < t + pollInterval spec /\
    elapsed p = (Z.of_nat (attempts p) - 1) * pollInterval spec.
Proof.
  intros HP Ht Hfuel Hgo Hcan Hsat.
  destruct (loop_success description predicate cancelled spec fuel t 0 0)
    as (p & ticks & Hrun & Hp & He); auto; try lia.
  exists p, ticks.
  destruct (await_elapsed _ _ _ _ _ _ _ Hrun) as (Hn & _ & _).
  repeat split; auto; lia.
Qed.

Lemma C2_scenario_witness :
  exists p ticks,
    awaitCondition "presence" Scenarios.presence_of_search_box no_cancel
      Scenarios.scenario_wait 10 = Some (Returned p, ticks) /\
    is_satisfied (outcome p) = true /\
    600 <= elapsed p <= 850 /\
    (2 <= attempts p <= 4)%nat.
Proof.
  destruct (C2_success_within_one_poll "presence"
              Scenarios.presence_of_search_box no_cancel
              Scenarios.scenario_wait 10 600)
    as (p & ticks & Hrun & Hp & He & Hn).
  - cbn. lia.
  - cbn. lia.
  - cbn. lia.
  - intros s Hs. unfold Scenarios.presence_of_search_box, Scenarios.page_at.
    destruct (Z.ltb_spec s 600); [ reflexivity | lia ].
  - reflexivity.
  - intros s Hs. unfold Scenarios.presence_of_search_box, Scenarios.page_at.
    destruct (Z.ltb_spec s 600); [ lia | vm_compute; reflexivity ].
  - exists p, ticks. cbn in He, Hn. repeat split; auto; lia.
Defined.

(** C3: a call with a positive poll interval returns, and if on one of
    its evaluation ticks the predicate reported Failed with a kind
    outside the ignorable set, the result is that error, propagated at
    the start time of that tick, which is the last tick of the run: no
    poll interval is slept after it, and the elapsed time is one poll
    interval per earlier attempt.  When the failure is reported on
    attempt 1 the elapsed time is 0, below the timeout. *)
Theorem C3_fatal_failure_propagates_at_once {A} description
    (predicate : Z -> ConditionOutcome A) cancelled spec fuel :
  0 < pollInterval spec <= timeout spec ->
  timeout spec < (Z.of_nat fuel - 1) * pollInterval spec ->
  exists r ticks,
    awaitCondition description predicate cancelled spec fuel = Some (r, ticks) /\
    (forall s e,
        s ∈ ticks -> predicate s = Failed e -> ignorable spec e = false ->
        r = Propagated e s (length ticks) /\
        last ticks = Some s /\
        s = (Z.of_nat (length ticks) - 1) * pollInterval spec) /\
    (forall e,
        predicate 0 = Failed e -> ignorable spec e = false ->
        r = Propagated e 0 1 /\ ticks = [0] /\
        result_elapsed r < timeout spec).
Proof.
  intros HP Hfuel.
  destruct (loop_total description predicate cancelled spec fuel 0 0)
    as (r & ticks & Hrun); try lia.
  exists r, ticks. split; [ exact Hrun | ].
  destruct (await_elapsed _ _ _ _ _ _ _ Hrun) as (He & Hlen & Hlast).
  split.
  - intros s e Hs Hfail Hfatal.
    destruct (loop_fail_fast _ _ _ _ _ _ _ _ _ Hrun s e Hs Hfail Hfatal)
      as (Hr & Hl).
    rewrite Nat.add_0_l in Hr.
    split; [ exact Hr | ]. split; [ exact Hl | ].
    rewrite Hl in Hlast. injection Hlast as Hs'.
    rewrite Hlen. lia.
  - intros e Hfail Hfatal.
    destruct fuel as [ | fuel ]; [ discriminate | ].
    unfold awaitCondition in Hrun. cbn [await_loop] in Hrun.
    rewrite Hfail, Hfatal in Hrun. injection Hrun as <- <-.
    repeat split. cbn. lia.
Qed.

Lemma C3_fatal_failure_witness :
  (exists r ticks,
      awaitCondition "presence" lost_after_a_second no_cancel short_wait 10
        = Some (r, ticks) /\
      r = Propagated SessionLost 1000 (length ticks) /\
      last ticks = Some 1000) /\
  (exists r ticks,
      awaitCondition "presence" lost no_cancel short_wait 10 = Some (r, ticks) /\
      r = Propagated SessionLost 0 1 /\ ticks = [0] /\
      result_elapsed r < 2000).
Proof.
  split.
  - destruct (C3_fatal_failure_propagates_at_once "presence"
                lost_after_a_second no_cancel short_wait 10)
      as (r & ticks & Hrun & Hany & _).
    + cbn. lia.
    + cbn. lia.
    + exists r, ticks. split; [ exact Hrun | ].
      assert (Hticks : ticks = [0; 500; 1000]).
      { vm_compute in Hrun. injection Hrun as _ <-. reflexivity. }
      destruct (Hany 1000 SessionLost) as (Hr & Hlast & _).
      * rewrite Hticks. do 2 apply list_elem_of_further. apply list_elem_of_here.
      * reflexivity.
      * vm_compute. reflexivity.
      * split; [ exact Hr | exact Hlast ].
  - destruct (C3_fatal_failure_propagates_at_once "presence"
                lost no_cancel short_wait 10)
      as (r & ticks & Hrun & _ & Hfirst).
    + cbn. lia.
    + cbn. lia.
    + exists r, ticks. split; [ exact Hrun | ].
      apply (Hfirst SessionLost).
      * reflexivity.
      * vm_compute. reflexivity.
Defined.

End EngineClaims.

Example short_wait_run :
  WaitEngine.awaitCondition "presence" WaitEngine.never WaitEngine.no_cancel
    WaitEngine.short_wait 10
  = Some (WaitEngine.TimeoutExceeded
            {| WaitEngine.awaited := "presence"; WaitEngine.waited := 2500%Z;
               WaitEngine.tried := 6; WaitEngine.note := None |},
          [0; 500; 1000; 1500; 2000; 2500]%Z).
Proof. vm_compute. reflexivity. Qed.

Example lost_session_run :
  WaitEngine.awaitCondition "presence" WaitEngine.lost_after_a_second
    WaitEngine.no_cancel WaitEngine.short_wait 10
  = Some (WaitEngine.Propagated SessionLost 1000%Z 3, [0; 500; 1000]%Z).
Proof. vm_compute. reflexivity. Qed.

Example lost_at_once_run :
  WaitEngine.awaitCondition "presence" WaitEngine.lost
    WaitEngine.no_cancel WaitEngine.short_wait 10
  = Some (WaitEngine.Propagated SessionLost 0%Z 1, [0%Z]).
Proof. vm_compute. reflexivity. Qed.

(** A target that appears exactly at the deadline is found by the tick
    that starts at the deadline. *)
Example ready_at_the_deadline_run :
  WaitEngine.awaitCondition "presence" (WaitEngine.ready_from 2000)
    WaitEngine.no_cancel WaitEngine.short_wait 10
  = Some (WaitEngine.Returned
            {| WaitEngine.outcome := Satisfied tt;
               WaitEngine.elapsed := 2000%Z; WaitEngine.attempts := 5 |},
          [0; 500; 1000; 1500; 2000]%Z).
Proof. vm_compute. reflexivity. Qed.

Example fluent_wait_run :
  WaitEngine.awaitCondition "presence" (WaitEngine.ready_from 1200)
    WaitEngine.no_cancel WaitEngine.fluent_wait 30
  = Some (WaitEngine.Returned
            {| WaitEngine.outcome := Satisfied tt;
               WaitEngine.elapsed := 1500%Z; WaitEngine.attempts := 4 |},
          [0; 500; 1000; 1500]%Z).
Proof. vm_compute. reflexivity. Qed.

Example fluent_wait_timeout_message :
  option_map (fun run => WaitEngine.result_elapsed (fst run))
    (WaitEngine.awaitCondition "presence" WaitEngine.never
       WaitEngine.no_cancel WaitEngine.fluent_wait 30) = Some 10500%Z /\
  exists d ticks,
    WaitEngine.awaitCondition "presence" WaitEngine.never
      WaitEngine.no_cancel WaitEngine.fluent_wait 30
    = Some (WaitEngine.TimeoutExceeded d, ticks) /\
    WaitEngine.note d = Some "Email field not found within 10 seconds"%string.
Proof. split; [ vm_compute; reflexivity | ]. eexists _, _. split; vm_compute; reflexivity. Qed.

Example scenario_run :
  WaitEngine.awaitCondition "presence" Scenarios.presence_of_search_box
    WaitEngine.no_cancel Scenarios.scenario_wait 10
  = Some (WaitEngine.Returned
            {| WaitEngine.outcome := Satisfied Scenarios.search_box;
               WaitEngine.elapsed := 750%Z; WaitEngine.attempts := 4 |},
          [0; 250; 500; 750]%Z).
Proof. vm_compute. reflexivity. Qed.

(* --------------------------------------------------------------------- *)
(** ** The custom wait conditions                                         *)
(* --------------------------------------------------------------------- *)

Section ConditionFacts.

Import Conditions.

Lemma append_cons c (s1 s2 : string) :
  (String c s1 ++ s2)%string = String c (s1 ++ s2)%string.
Proof. reflexivity. Qed.

Lemma prefix_app (sub s : string) :
  String.prefix sub s = true <-> exists post, s = (sub ++ post)%string.
Proof.
  revert s. induction sub as [ | c sub IH ]; intros s.
  - cbn. split; [ intros _; exists s; reflexivity | ].
    intros _. destruct s; reflexivity.
  - destruct s as [ | c' s ]; cbn.
    + split; [ discriminate | intros [post Hpost]; discriminate ].
    + destruct (Ascii.ascii_dec c c') as [ -> | Hne ].
      * rewrite IH. split; intros [post Hpost]; exists post;
          rewrite append_cons in *; congruence.
      * split; [ discriminate | ]. intros [post Hpost].
        rewrite append_cons in Hpost. congruence.
Qed.

(** [contains] is Python's [in] on strings: the text occurs somewhere
    in the string. *)
Lemma contains_spec (sub s : string) :
  contains sub s = true <->
  exists pre post, s = (pre ++ sub ++ post)%string.
Proof.
  induction s as [ | c s IH ].
  - cbn [contains]. rewrite orb_false_r, prefix_app. split.
    + intros [post Hpost]. exists ""%string, post. exact Hpost.
    + intros (pre & post & Heq). destruct pre; [ | discriminate ].
      exists post. exact Heq.
  - cbn [contains]. rewrite orb_true_iff, prefix_app, IH. split.
    + intros [ [post Hpost] | (pre & post & Heq) ].
      * exists ""%string, post. exact Hpost.
      * exists (String c pre), post. rewrite append_cons. congruence.
    + intros (pre & post & Heq). destruct pre as [ | c' pre ].
      * left. exists post. exact Heq.
      * right. rewrite append_cons in Heq. injection Heq as _ Heq. eauto.
Qed.



End ConditionFacts.

Section ConditionClaims.

Import Conditions.



(** C6, as stated, fails on a page where [(By.NAME, "q")] matches two
    distinct elements: the condition reads the first one, whose value
    attribute contains the text (its [text] does not), and is Satisfied;
    it does not fail. *)
Lemma C6_counterexample :
  find_elements simple_matches (NAME, "q") Scenarios.ambiguous_page
    = [Scenarios.search_box; Scenarios.second_box] /\
  ref Scenarios.search_box <> ref Scenarios.second_box /\
  contains "Google" (text Scenarios.search_box) = false /\
  element_has_text simple_matches (NAME, "q") "Google" Scenarios.ambiguous_page
    = Ok true /\
  forall kind,
    observe (element_has_text simple_matches (NAME, "q") "Google"
               Scenarios.ambiguous_page) <> Failed kind.
Proof.
  split; [ vm_compute; reflexivity | ].
  split; [ cbn; lia | ].
  split; [ reflexivity | ].
  assert (Hrun : element_has_text simple_matches (NAME, "q") "Google"
                   Scenarios.ambiguous_page = Ok true)
    by (vm_compute; reflexivity).
  split; [ exact Hrun | ].
  intros kind. rewrite Hrun. discriminate.
Qed.

(** The closure on the page of one tick is the closure over the driver
    that answers from that page. *)
Lemma element_has_text_on_page matches (locator : Locator) (text : string)
    (page : Page) :
  element_has_text matches locator text page
  = RemoteConditions.element_has_text _
      (fun l => find_element matches l page)
      (fun element name => Ok (get_attribute element name))
      locator text.
Proof.
  unfold element_has_text, RemoteConditions.element_has_text.
  destruct (find_element matches locator page) as [ element | e ];
    [ | reflexivity ].
  destruct (get_attribute element "value"); reflexivity.
Qed.

(** C6 (amended): the condition is Satisfied exactly when the first
    element that the locator matches has a value attribute in which the
    text occurs; the other matches are not looked at.  Over a remote
    driver: exactly when the lookup returns an element, the read of its
    value attribute returns a string, and the text occurs in it.  On the
    page of one tick: exactly when the list of matches has a first
    element whose value attribute holds the text. *)
Theorem C6_first_match_value_contains :
  (forall (Element : Type) (remote_find : Locator -> Outcome Element)
          (remote_attribute : Element -> string -> Outcome (option string))
          (locator : Locator) (text : string),
      observe (RemoteConditions.element_has_text Element remote_find
                 remote_attribute locator text) = Satisfied true <->
      exists element value pre post,
        remote_find locator = Ok element /\
        remote_attribute element "value" = Ok (Some value) /\
        value = (pre ++ text ++ post)%string) /\
  (forall matches (locator : Locator) (text : string) (page : Page),
      observe (element_has_text matches locator text page) = Satisfied true <->
      exists element rest value pre post,
        find_elements matches locator page = element :: rest /\
        get_attribute element "value" = Some value /\
        value = (pre ++ text ++ post)%string).
Proof.
  assert (Hremote :
            forall (Element : Type) (remote_find : Locator -> Outcome Element)
                   (remote_attribute : Element -> string -> Outcome (option string))
                   (locator : Locator) (text : string),
              observe (RemoteConditions.element_has_text Element remote_find
                         remote_attribute locator text) = Satisfied true <->
              exists element value pre post,
                remote_find locator = Ok element /\
                remote_attribute element "value" = Ok (Some value) /\
                value = (pre ++ text ++ post)%string).
  { intros Element remote_find remote_attribute locator text.
    unfold RemoteConditions.element_has_text.
    destruct (remote_find locator) as [ element | e ].
    - destruct (remote_attribute element "value") as [ [ value | ] | e ] eqn:Hval.
      + split.
        * intros Hobs.
          assert (Hin : contains text value = true).
          { cbn in Hobs. destruct (contains text value); [ reflexivity | discriminate ]. }
          apply contains_spec in Hin as (pre & post & Heq).
          exists element, value, pre, post. auto.
        * intros (el & v & pre & post & Hfound & Hv & Heq).
          injection Hfound as <-. rewrite Hval in Hv. injection Hv as <-.
          assert (Hin : contains text value = true)
            by (apply contains_spec; eauto).
          cbn. rewrite Hin. reflexivity.
      + split; [ discriminate | ].
        intros (el & v & pre & post & Hfound & Hv & Heq).
        injection Hfound as <-. congruence.
      + split; [ discriminate | ].
        intros (el & v & pre & post & Hfound & Hv & Heq).
        injection Hfound as <-. congruence.
    - split; [ discriminate | ].
      intros (el & v & pre & post & Hfound & _). discriminate. }
  split; [ exact Hremote | ].
  intros matches locator text page.
  rewrite element_has_text_on_page, Hremote. unfold find_element. split.
  - intros (element & value & pre & post & Hfound & Hv & Heq).
    destruct (find_elements matches locator page) as [ | first rest ];
      [ discriminate | ].
    injection Hfound as ->. injection Hv as Hv.
    exists element, rest, value, pre, post. auto.
  - intros (element & rest & value & pre & post & Hfound & Hv & Heq).
    exists element, value, pre, post. rewrite Hfound, Hv. auto.
Qed.

End ConditionClaims.

Example has_text_first_match :
  Conditions.element_has_text Conditions.simple_matches (NAME, "q") "else"
    Scenarios.ambiguous_page = Ok false.
Proof. vm_compute. reflexivity. Qed.

Example has_text_no_match :
  Conditions.element_has_text Conditions.simple_matches (ID, "missing") "x"
    Scenarios.ambiguous_page = Raise NoSuchElementException.
Proof. vm_compute. reflexivity. Qed.

(* --------------------------------------------------------------------- *)
(** ** Page objects                                                       *)
(* --------------------------------------------------------------------- *)

Create HintDb page_objects.

Section MonadFacts.

Context {W : Type} `{Selenium W}.

Lemma bind_run {A B} (m : M W A) (k : A -> M W B) (w : W) :
  (m ≫= k) w =
  match m w with
  | (Ok a, w1, evs1) =>
      match k a w1 with
      | (r, w2, evs2) => (r, w2, evs1 ++ evs2)
      end
  | (Raise e, w1, evs1) => (Raise e, w1, evs1)
  end.
Proof. reflexivity. Qed.

Lemma direct_sleeps_app (evs1 evs2 : list Event) :
  direct_sleeps (evs1 ++ evs2) = direct_sleeps evs1 ++ direct_sleeps evs2.
Proof. apply omap_app. Qed.

(** *** Propagation of the failures of waits *)

Lemma propagating_ret {A} (a : A) : Propagating (mret a : M W A).
Proof. intros w ev e Hin. cbn in Hin. inversion Hin. Qed.

Lemma propagating_raise {A} (x : Exn) : Propagating (raise x : M W A).
Proof. intros w ev e Hin. cbn in Hin. inversion Hin. Qed.

Lemma propagating_until {R} (c : ExpectedCondition R) : Propagating (until c).
Proof.
  intros w ev e. unfold until, events_of, result_of.
  destruct (wait_until c w) as [r w1]. cbn.
  intros Hin Hfail. apply list_elem_of_singleton in Hin. subst ev.
  cbn in Hfail. destruct r; cbn in Hfail; congruence.
Qed.

Lemma propagating_command {A} name (c : W -> Outcome A * W) :
  Propagating (command name c).
Proof.
  intros w ev e. unfold command, events_of.
  destruct (c w) as [r w1]. cbn.
  intros Hin Hfail. apply list_elem_of_singleton in Hin. subst ev. discriminate.
Qed.

Lemma propagating_query {A} (q : W -> Outcome A) : Propagating (query q).
Proof. intros w ev e Hin. cbn in Hin. inversion Hin. Qed.

Lemma propagating_sleep seconds : Propagating (sleep seconds).
Proof.
  intros w ev e Hin Hfail. cbn in Hin.
  apply list_elem_of_singleton in Hin. subst ev. discriminate.
Qed.

Lemma propagating_bind {A B} (m : M W A) (k : A -> M W B) :
  Propagating m -> (forall a, Propagating (k a)) -> Propagating (m ≫= k).
Proof.
  intros Hm Hk w ev e. rewrite bind_run.
  specialize (Hm w ev e). unfold events_of, result_of in *.
  destruct (m w) as [[[a | x] w1] evs1]; cbn in *.
  - specialize (Hk a w1 ev e). unfold events_of, result_of in Hk.
    destruct (k a w1) as [[r w2] evs2]. cbn in *.
    intros Hin Hfail. apply elem_of_app in Hin as [ Hin | Hin ].
    + specialize (Hm Hin Hfail). discriminate.
    + auto.
  - intros Hin Hfail. specialize (Hm Hin Hfail).
    injection Hm as ->. reflexivity.
Qed.

Lemma propagating_if {A} (b : bool) (m1 m2 : M W A) :
  Propagating m1 -> Propagating m2 -> Propagating (if b then m1 else m2).
Proof. destruct b; auto. Qed.

Lemma propagating_nonempty_texts results :
  Propagating (BasePage.nonempty_texts results).
Proof.
  induction results as [ | result rest IH ]; cbn [BasePage.nonempty_texts].
  - apply propagating_ret.
  - apply propagating_bind; [ apply propagating_query | ].
    intros shown. apply propagating_if; [ exact IH | ].
    apply propagating_bind; [ apply propagating_query | ].
    intros text. apply propagating_bind; [ exact IH | ].
    intros texts. apply propagating_ret.
Qed.

(** *** Direct sleeps *)

Lemma sleepless_ret {A} (a : A) : Sleepless (mret a : M W A).
Proof. intros w. reflexivity. Qed.

Lemma sleepless_until {R} (c : ExpectedCondition R) : Sleepless (until c).
Proof.
  intros w. unfold until, events_of. destruct (wait_until c w). reflexivity.
Qed.

Lemma sleepless_command {A} name (c : W -> Outcome A * W) :
  Sleepless (command name c).
Proof.
  intros w. unfold command, events_of. destruct (c w). reflexivity.
Qed.

Lemma sleepless_query {A} (q : W -> Outcome A) : Sleepless (query q).
Proof. intros w. reflexivity. Qed.

Lemma sleepless_bind {A B} (m : M W A) (k : A -> M W B) :
  Sleepless m -> (forall a, Sleepless (k a)) -> Sleepless (m ≫= k).
Proof.
  intros Hm Hk w. rewrite bind_run.
  specialize (Hm w). unfold events_of in *.
  destruct (m w) as [[[a | x] w1] evs1]; cbn [fst snd is_ok] in *.
  - specialize (Hk a w1). unfold events_of in Hk.
    destruct (k a w1) as [[r w2] evs2]. cbn [fst snd is_ok] in *.
    rewrite direct_sleeps_app, Hm, Hk. reflexivity.
  - exact Hm.
Qed.

Lemma sleepless_try_except {A} (m handler : M W A) :
  Sleepless m -> Sleepless handler -> Sleepless (try_except m handler).
Proof.
  intros Hm Hh w. unfold try_except.
  specialize (Hm w). unfold events_of in *.
  destruct (m w) as [[[a | x] w1] evs1]; cbn [fst snd is_ok] in *.
  - exact Hm.
  - specialize (Hh w1). unfold events_of in Hh.
    destruct (handler w1) as [[r w2] evs2]. cbn [fst snd is_ok] in *.
    rewrite direct_sleeps_app, Hm, Hh. reflexivity.
Qed.

Lemma sleepless_if {A} (b : bool) (m1 m2 : M W A) :
  Sleepless m1 -> Sleepless m2 -> Sleepless (if b then m1 else m2).
Proof. destruct b; auto. Qed.

Lemma sleepless_nonempty_texts results :
  Sleepless (BasePage.nonempty_texts results).
Proof.
  induction results as [ | result rest IH ]; cbn [BasePage.nonempty_texts].
  - apply sleepless_ret.
  - apply sleepless_bind; [ apply sleepless_query | ].
    intros shown. apply sleepless_if; [ exact IH | ].
    apply sleepless_bind; [ apply sleepless_query | ].
    intros text. apply sleepless_bind; [ exact IH | ].
    intros texts. apply sleepless_ret.
Qed.

Lemma sleeps_last_sleep seconds : SleepsLast seconds (sleep seconds).
Proof. intros w. reflexivity. Qed.

Lemma sleeps_last_bind {A B} seconds (m : M W A) (k : A -> M W B) :
  Sleepless m -> (forall a, SleepsLast seconds (k a)) ->
  SleepsLast seconds (m ≫= k).
Proof.
  intros Hm Hk w. rewrite bind_run.
  specialize (Hm w). unfold events_of, result_of in *.
  destruct (m w) as [[[a | x] w1] evs1]; cbn [fst snd is_ok] in *.
  - specialize (Hk a w1). unfold events_of, result_of in Hk.
    destruct (k a w1) as [[r w2] evs2]. cbn [fst snd is_ok] in *.
    rewrite direct_sleeps_app, Hm, Hk. reflexivity.
  - exact Hm.
Qed.

End MonadFacts.

#[local] Hint Resolve propagating_ret propagating_raise propagating_until
  propagating_command propagating_query propagating_sleep propagating_bind
  propagating_if propagating_nonempty_texts : page_objects.
#[local] Hint Resolve sleepless_ret sleepless_until sleepless_command
  sleepless_query sleepless_bind sleepless_try_except sleepless_if
  sleepless_nonempty_texts sleeps_last_sleep sleeps_last_bind : page_objects.

#[local] Hint Unfold BasePage.find_element BasePage.find_elements
  BasePage.click_element BasePage.type_text BasePage.get_text
  BasePage.is_element_visible BasePage.wait_for_page_load
  BasePage.get_page_title BasePage.get_current_url BasePage.take_screenshot
  GooglePage.navigate_to GooglePage.search GooglePage.get_search_results
  GooglePage.click_gmail GooglePage.click_images
  GooglePage.is_search_box_visible
  FacebookPage.navigate_to FacebookPage.enter_email
  FacebookPage.enter_password FacebookPage.click_login FacebookPage.login
  FacebookPage.click_forgot_password FacebookPage.click_create_account
  FacebookPage.is_email_field_visible
  AmazonPage.navigate_to AmazonPage.search_product
  AmazonPage.get_product_results AmazonPage.click_cart
  AmazonPage.click_account AmazonPage.is_search_box_visible : page_objects.

Ltac page_object :=
  cbn [perform]; autounfold with page_objects;
  repeat first
    [ apply propagating_bind; [ | intros ? ]
    | apply sleepless_bind; [ | intros ? ]
    | apply sleeps_last_bind; [ | intros ? ]
    | apply propagating_if
    | apply sleepless_if
    | apply sleepless_try_except
    | solve [ auto with page_objects ] ].

Section PageObjectClaims.

Context {W : Type} `{Selenium W}.

Lemma perform_sleepless {R} (op : PageOp R) :
  sleeps op = false -> Sleepless (perform op).
Proof. destruct op; cbn [sleeps]; intros Hs; try discriminate; page_object. Qed.

Lemma perform_sleeps_last {R} (op : PageOp R) :
  sleeps op = true -> SleepsLast 2 (perform op).
Proof. destruct op; cbn [sleeps]; intros Hs; try discriminate; page_object. Qed.

Lemma perform_propagating {R} (op : PageOp R) :
  catches op = false -> Propagating (perform op).
Proof. destruct op; cbn [catches]; intros Hc; try discriminate; page_object. Qed.

(** C4 (amended): every page-object operation other than
    [is_element_visible] and the three checks that call it
    ([is_search_box_visible] of the Google and Amazon pages,
    [is_email_field_visible]) propagates the failure of any of its waits
    unmodified: if a wait of the operation ended in an exception, the
    operation raises that exception.  [is_element_visible] catches
    whatever its wait raises and returns False. *)
Theorem C4_failures_propagate_except_visibility_checks :
  (forall (R : Type) (op : PageOp R),
      catches op = false ->
      forall (w : W) (ev : Event) (e : Exn),
        ev ∈ events_of (perform op w) -> failed_wait ev = Some e ->
        result_of (perform op w) = Raise e) /\
  (forall (locator : Locator) (w : W) (e : Exn),
      fst (wait_until (visibility_of_element_located locator) w) = Raise e ->
      result_of (BasePage.is_element_visible locator w) = Ok false).
Proof.
  split.
  - intros R op Hc. apply perform_propagating. exact Hc.
  - intros locator w e Hwait.
    unfold BasePage.is_element_visible, try_except, result_of.
    rewrite bind_run. unfold until.
    destruct (wait_until (visibility_of_element_located locator) w) as [r w1].
    cbn in Hwait. subst r. reflexivity.
Qed.

(** C8 (amended): the direct sleeps of a page-object operation are
    known from its name: [GooglePage.search], [FacebookPage.login] and
    [AmazonPage.search_product] sleep two seconds once, as their last
    step, when all that precedes it returned normally; no other
    operation, and none of these three before that step, sleeps
    directly: their waiting goes through [wait.until]. *)
Theorem C8_direct_sleeps_of_page_objects {R} (op : PageOp R) (w : W) :
  direct_sleeps (events_of (perform op w))
  = if sleeps op && is_ok (result_of (perform op w)) then [2%Z] else [].
Proof.
  destruct (sleeps op) eqn:Hs; cbn [andb].
  - apply perform_sleeps_last. exact Hs.
  - apply perform_sleepless. exact Hs.
Qed.

End PageObjectClaims.

Section ScriptedRuns.

Import Scripted.

(** C4, as stated, fails for [is_element_visible]: on a page where the
    wait for visibility times out, the method returns False instead of
    raising TimeoutException. *)
Lemma C4_counterexample :
  fst (wait_until (visibility_of_element_located GooglePage.SEARCH_BOX) stuck)
    = Raise TimeoutException /\
  BasePage.is_element_visible GooglePage.SEARCH_BOX stuck
    = (Ok false, stuck,
       [EvUntil (visibility_of_element_located GooglePage.SEARCH_BOX)
          (Some TimeoutException)]) /\
  result_of (perform google_is_search_box_visible stuck) = Ok false.
Proof. repeat split. Qed.

Lemma C4_failures_propagate_witness :
  result_of (perform (google_search "selenium") stuck) = Raise TimeoutException /\
  result_of (BasePage.is_element_visible GooglePage.SEARCH_BOX stuck) = Ok false.
Proof.
  destruct (@C4_failures_propagate_except_visibility_checks World browser)
    as [ Hpropagate Hcaught ].
  split.
  - apply (Hpropagate unit (google_search "selenium") eq_refl stuck
             (EvUntil (presence_of_element_located GooglePage.SEARCH_BOX)
                (Some TimeoutException))).
    + cbn. apply list_elem_of_here.
    + reflexivity.
  - apply (Hcaught GooglePage.SEARCH_BOX stuck TimeoutException).
    reflexivity.
Defined.

(** C8, as stated, fails for [GooglePage.search]: after its two waits
    the method calls [time.sleep(2)]. *)
Lemma C8_counterexample :
  events_of (perform (google_search "selenium") ready)
    = [EvUntil (presence_of_element_located GooglePage.SEARCH_BOX) None;
       EvCommand "clear" None;
       EvCommand "send_keys" None;
       EvUntil (element_to_be_clickable GooglePage.SEARCH_BUTTON) None;
       EvCommand "click" None;
       EvSleep 2] /\
  direct_sleeps (events_of (perform (google_search "selenium") ready)) = [2%Z] /\
  clock (world_of (perform (google_search "selenium") ready)) = 2%Z.
Proof. repeat split. Qed.

End ScriptedRuns.

Example login_sleeps_after_its_waits :
  direct_sleeps (events_of (perform (facebook_login "a@b.c" "pw") Scripted.ready))
  = [2%Z].
Proof. reflexivity. Qed.

Example login_does_not_sleep_when_a_wait_fails :
  perform (facebook_login "a@b.c" "pw") Scripted.stuck
  = (Raise TimeoutException, Scripted.stuck,
     [EvUntil (presence_of_element_located FacebookPage.EMAIL_FIELD)
        (Some TimeoutException)]).
Proof. reflexivity. Qed.

Example search_results_drop_empty_titles :
  result_of (GooglePage.get_search_results Scripted.ready)
  = Ok ["Selenium"; "WebDriver"]%string.
Proof. reflexivity. Qed.

(* --------------------------------------------------------------------- *)
(** ** The result lists on a live page                                    *)
(* --------------------------------------------------------------------- *)

Section LiveFacts.

Context {W : Type} `{Selenium W}.

(** On a page that stands still the comprehension on the live page is
    the comprehension of [BasePage]. *)
Lemma live_nonempty_texts_still (results : list WebElement) (w : W) :
  LivePage.nonempty_texts (H0 := LivePage.still) results w
  = BasePage.nonempty_texts results w.
Proof.
  revert w. induction results as [ | result rest IH ]; intros w.
  - reflexivity.
  - cbn [LivePage.nonempty_texts BasePage.nonempty_texts].
    rewrite !bind_run. unfold LivePage.read at 1, query at 1.
    cbn [read_text LivePage.still].
    destruct (element_text w result) as [ shown | x ] eqn:Hshown; [ | reflexivity ].
    destruct (String.eqb shown "").
    + rewrite IH. reflexivity.
    + rewrite !bind_run. unfold LivePage.read at 1, query at 1.
      cbn [read_text LivePage.still]. rewrite Hshown.
      rewrite !bind_run, IH. reflexivity.
Qed.

Context `{LiveReads W}.

(** While the page keeps the texts of the elements, the comprehension
    returns the non-empty ones, in the order of the elements.  [during]
    holds of the states that the page goes through while it is read. *)
Lemma live_nonempty_texts_exact (during : W -> Prop)
    (text_of : WebElement -> string) (results : list WebElement) :
  (forall result w', result ∈ results -> during w' ->
                     during (snd (read_text result w'))) ->
  (forall result w', result ∈ results -> during w' ->
                     fst (read_text result w') = Ok (text_of result)) ->
  forall w, during w ->
    exists w1,
      LivePage.nonempty_texts results w
      = (Ok (List.filter nonempty (List.map text_of results)), w1, []) /\
      during w1.
Proof.
  induction results as [ | result rest IH ]; intros Hkeep Hread w Hw.
  - exists w. split; [ reflexivity | exact Hw ].
  - assert (Hhere : result ∈ result :: rest) by apply list_elem_of_here.
    assert (IH' : forall w', during w' ->
              exists w1,
                LivePage.nonempty_texts rest w'
                = (Ok (List.filter nonempty (List.map text_of rest)), w1, []) /\
                during w1).
    { apply IH; intros r w' Hr; [ apply Hkeep | apply Hread ];
        apply list_elem_of_further; exact Hr. }
    cbn [LivePage.nonempty_texts List.map List.filter].
    rewrite bind_run. unfold LivePage.read at 1.
    pose proof (Hread result w Hhere Hw) as Hfirst.
    pose proof (Hkeep result w Hhere Hw) as Hw1.
    destruct (read_text result w) as [r1 w1]. cbn [fst snd] in Hfirst, Hw1.
    subst r1. unfold nonempty at 1.
    destruct (String.eqb (text_of result) "") eqn:Hempty; cbn [negb].
    + destruct (IH' w1 Hw1) as (w2 & Hrest & Hw2).
      exists w2. rewrite Hrest. split; [ reflexivity | exact Hw2 ].
    + rewrite bind_run. unfold LivePage.read at 1.
      pose proof (Hread result w1 Hhere Hw1) as Hsecond.
      pose proof (Hkeep result w1 Hhere Hw1) as Hw2.
      destruct (read_text result w1) as [r2 w2]. cbn [fst snd] in Hsecond, Hw2.
      subst r2. rewrite bind_run.
      destruct (IH' w2 Hw2) as (w3 & Hrest & Hw3).
      exists w3. rewrite Hrest. split; [ reflexivity | exact Hw3 ].
Qed.

End LiveFacts.

Section LiveRuns.

Import Scripted Hiding.

(** C10: the comprehension evaluates [result.text] once for the filter
    and once more for the list.  On a page that hides its results
    between the two evaluations the first title passes the filter with
    the text "Selenium" and goes into the list with the text of the
    second evaluation, which is empty: [get_search_results] and
    [get_product_results] return a list that holds the empty string. *)
Theorem C10_kept_text_can_be_empty :
  fst (read_text (LiveReads := hiding) 1%nat ready) = Ok "Selenium"%string /\
  fst (read_text (LiveReads := hiding) 1%nat
         (snd (read_text (LiveReads := hiding) 1%nat ready))) = Ok ""%string /\
  @LivePage.get_search_results World browser hiding ready
  = (Ok [""%string], hidden_results,
     [EvUntil (presence_of_all_elements_located GooglePage.SEARCH_RESULTS) None]) /\
  @LivePage.get_product_results World browser hiding ready
  = (Ok [""%string], hidden_results,
     [EvUntil (presence_of_all_elements_located AmazonPage.SEARCH_RESULTS) None]).
Proof.
  split; [ reflexivity | ]. split; [ reflexivity | ].
  split; vm_compute; reflexivity.
Qed.

End LiveRuns.

Example live_results_on_a_still_page :
  result_of (LivePage.get_search_results (H0 := LivePage.still) Scripted.ready)
  = Ok ["Selenium"; "WebDriver"]%string.
Proof. reflexivity. Qed.

(* --------------------------------------------------------------------- *)
(** ** The test fixture                                                   *)
(* --------------------------------------------------------------------- *)

Section TestBaseFacts.

Import TestBase.
Context {W : Type} `{Chrome W}.

(** Without a [driver] attribute teardown does nothing. *)
Lemma teardown_without_driver (self : gmap string Attr) (w : W) :
  self !! "driver" = None ->
  teardown_method self w = (Ok tt, w, []).
Proof.
  intros Hnone. unfold teardown_method, hasattr. rewrite Hnone.
  rewrite bool_decide_eq_false_2 by (apply is_Some_None).
  reflexivity.
Qed.

(** With a driver in the [driver] attribute teardown is [driver.quit()]. *)
Lemma teardown_with_driver (self : gmap string Attr) (d : Driver) (w : W) :
  self !! "driver" = Some (ADriver d) ->
  teardown_method self w = command "quit" (driver_quit d) w.
Proof.
  intros Hsome. unfold teardown_method, hasattr. rewrite Hsome.
  rewrite bool_decide_eq_true_2 by eauto.
  unfold mbind, M_bind, bind, getattr. rewrite Hsome. cbn.
  unfold command. destruct (driver_quit d w) as [r w1]. reflexivity.
Qed.

(** C9: in every state that [setup_method] leaves a fresh instance in,
    [teardown_method] returns without an AttributeError of its own.
    When setup failed before Chrome was created the instance has no
    [driver] attribute and teardown returns normally, leaving the world
    as it is; when Chrome was created the attribute holds that driver
    and teardown is exactly [driver.quit()]; and a quit is only ever
    sent when the attribute exists. *)
Theorem C9_teardown_after_setup (w0 : W) (r : Outcome unit)
    (self : gmap string Attr) (w1 : W) (evs : list Event) :
  setup_method ∅ w0 = (r, self, w1, evs) ->
  forall w : W,
    (EvCommand "Chrome" None ∉ evs ->
     is_ok r = false /\ self !! "driver" = None /\
     teardown_method self w = (Ok tt, w, [])) /\
    (EvCommand "Chrome" None ∈ evs ->
     exists d, self !! "driver" = Some (ADriver d) /\
               teardown_method self w = command "quit" (driver_quit d) w) /\
    (forall failure,
        EvCommand "quit" failure ∈ events_of (teardown_method self w) ->
        is_Some (self !! "driver")).
Proof.
  intros Hsetup w. split; [ | split ].
  - intros Hnot. unfold setup_method in Hsetup.
    destruct (chromedriver_install w0) as [[ [] | e ] wa].
    + destruct (new_chrome wa) as [[ d | e ] wb].
      * exfalso. apply Hnot.
        destruct (execute_script d hide_webdriver wb) as [[ [] | e ] wc];
          injection Hsetup as _ _ _ <-; set_solver.
      * injection Hsetup as <- <- _ _.
        split; [ reflexivity | ]. split; [ apply lookup_empty | ].
        apply teardown_without_driver, lookup_empty.
    + injection Hsetup as <- <- _ _.
      split; [ reflexivity | ]. split; [ apply lookup_empty | ].
      apply teardown_without_driver, lookup_empty.
  - intros Hin. unfold setup_method in Hsetup.
    destruct (chromedriver_install w0) as [[ [] | e ] wa].
    + destruct (new_chrome wa) as [[ d | e ] wb].
      * exists d.
        assert (Hdriver : self !! "driver" = Some (ADriver d)).
        { destruct (execute_script d hide_webdriver wb) as [[ [] | e ] wc];
            injection Hsetup as _ <- _ _.
          - rewrite !lookup_insert_ne by discriminate.
            apply lookup_insert_eq.
          - apply lookup_insert_eq. }
        split; [ exact Hdriver | ].
        apply teardown_with_driver. exact Hdriver.
      * exfalso. injection Hsetup as _ _ _ <-.
        repeat (apply elem_of_cons in Hin as [ Hin | Hin ]; [ discriminate | ]).
        inversion Hin.
    + exfalso. injection Hsetup as _ _ _ <-.
      repeat (apply elem_of_cons in Hin as [ Hin | Hin ]; [ discriminate | ]).
      inversion Hin.
  - intros failure Hquit.
    destruct (self !! "driver") as [ a | ] eqn:Hlookup; [ eauto | ].
    rewrite (teardown_without_driver self w Hlookup) in Hquit.
    cbn in Hquit. inversion Hquit.
Qed.

End TestBaseFacts.

Section TestBaseRuns.

Import TestBase Scripted.

Lemma C9_teardown_after_setup_witness :
  teardown_method (∅ : gmap string Attr) ready = (Ok tt, ready, []).
Proof.
  destruct (@C9_teardown_after_setup World chrome no_chrome
              (Raise WebDriverException) ∅ no_chrome
              [EvCommand "install" None;
               EvCommand "Chrome" (Some WebDriverException)]
              eq_refl ready) as (Hbefore & _ & _).
  apply Hbefore.
  intros Hin.
  repeat (apply elem_of_cons in Hin as [ Hin | Hin ]; [ discriminate | ]).
  inversion Hin.
Defined.

End TestBaseRuns.

Example setup_then_teardown_quits :
  let '(r, self, w, evs) := TestBase.setup_method ∅ Scripted.ready in
  r = Ok tt /\
  events_of (TestBase.teardown_method self w) = [EvCommand "quit" None].
Proof. vm_compute. split; reflexivity. Qed.

(* ===================================================================== *)
(** * Part III: further properties of the page objects                    *)
(* ===================================================================== *)

Section TraceFacts.

Context {W : Type} `{Selenium W}.

Lemma allowed_weaken (prev : option Event) (ev : Event) :
  allowed None ev = true -> allowed prev ev = true.
Proof.
  destruct ev as [ R c f | s | name f ]; cbn; try reflexivity.
  destruct (String.eqb name "click"); [ discriminate | ].
  destruct (String.eqb name "clear"); [ discriminate | ].
  destruct (String.eqb name "send_keys"); [ discriminate | reflexivity ].
Qed.

Lemma guarded_weaken (prev : option Event) (evs : list Event) :
  guarded None evs = true -> guarded prev evs = true.
Proof.
  destruct evs as [ | ev rest ]; cbn; [ reflexivity | ].
  rewrite !andb_true_iff. intros [Ha Hg]. split; [ | exact Hg ].
  apply allowed_weaken. exact Ha.
Qed.

Lemma guarded_app (prev : option Event) (evs1 evs2 : list Event) :
  guarded prev evs1 = true -> guarded None evs2 = true ->
  guarded prev (evs1 ++ evs2) = true.
Proof.
  revert prev. induction evs1 as [ | ev rest IH ]; intros prev H1 H2; cbn in *.
  - apply guarded_weaken. exact H2.
  - apply andb_true_iff in H1 as [Ha Hg].
    rewrite Ha. cbn. apply IH; assumption.
Qed.

Lemma guarded_ret {A} (a : A) : Guarded (mret a : M W A).
Proof. intros w. reflexivity. Qed.

Lemma guarded_query {A} (q : W -> Outcome A) : Guarded (query q).
Proof. intros w. reflexivity. Qed.

Lemma guarded_sleep seconds : Guarded (sleep seconds).
Proof. intros w. reflexivity. Qed.

Lemma guarded_until {R} (c : ExpectedCondition R) : Guarded (until c).
Proof.
  intros w. unfold until, events_of. destruct (wait_until c w). reflexivity.
Qed.

(** A command that is neither a click, a [clear] nor [send_keys]. *)
Lemma guarded_command {A} name (c : W -> Outcome A * W) :
  allowed None (EvCommand name None) = true -> Guarded (command name c).
Proof.
  intros Hname w. unfold command, events_of. destruct (c w) as [r w1].
  cbn [snd guarded]. rewrite andb_true_r.
  cbn in *. destruct (String.eqb name "click"); [ discriminate | ].
  destruct (String.eqb name "clear"); [ discriminate | ].
  destruct (String.eqb name "send_keys"); [ discriminate | reflexivity ].
Qed.

Lemma guarded_bind {A B} (m : M W A) (k : A -> M W B) :
  Guarded m -> (forall a, Guarded (k a)) -> Guarded (m ≫= k).
Proof.
  intros Hm Hk w. rewrite bind_run.
  specialize (Hm w). unfold events_of in *.
  destruct (m w) as [[[a | x] w1] evs1]; cbn [fst snd] in *.
  - specialize (Hk a w1). unfold events_of in Hk.
    destruct (k a w1) as [[r w2] evs2]. cbn [fst snd] in *.
    apply guarded_app; assumption.
  - exact Hm.
Qed.

Lemma guarded_try_except {A} (m handler : M W A) :
  Guarded m -> Guarded handler -> Guarded (try_except m handler).
Proof.
  intros Hm Hh w. unfold try_except.
  specialize (Hm w). unfold events_of in *.
  destruct (m w) as [[[a | x] w1] evs1]; cbn [fst snd] in *.
  - exact Hm.
  - specialize (Hh w1). unfold events_of in Hh.
    destruct (handler w1) as [[r w2] evs2]. cbn [fst snd] in *.
    apply guarded_app; assumption.
Qed.

Lemma guarded_if {A} (b : bool) (m1 m2 : M W A) :
  Guarded m1 -> Guarded m2 -> Guarded (if b then m1 else m2).
Proof. destruct b; auto. Qed.

Lemma guarded_click_element locator : Guarded (BasePage.click_element locator).
Proof.
  intros w. unfold BasePage.click_element. rewrite bind_run.
  unfold until, command, events_of.
  destruct (wait_until (element_to_be_clickable locator) w) as [[element | x] w1];
    [ | reflexivity ].
  destruct (click element w1) as [r w2]. reflexivity.
Qed.

Lemma guarded_type_text locator text : Guarded (BasePage.type_text locator text).
Proof.
  intros w. unfold BasePage.type_text, BasePage.find_element.
  rewrite bind_run. unfold until, events_of.
  destruct (wait_until (presence_of_element_located locator) w) as [[element | x] w1];
    [ | reflexivity ].
  rewrite bind_run. unfold command.
  destruct (clear element w1) as [[[] | x] w2]; [ | reflexivity ].
  destruct (send_keys element text w2) as [r w3]. reflexivity.
Qed.

Lemma guarded_nonempty_texts results : Guarded (BasePage.nonempty_texts results).
Proof.
  induction results as [ | result rest IH ]; cbn [BasePage.nonempty_texts].
  - apply guarded_ret.
  - apply guarded_bind; [ apply guarded_query | ].
    intros shown. apply guarded_if; [ exact IH | ].
    apply guarded_bind; [ apply guarded_query | ].
    intros text. apply guarded_bind; [ exact IH | ].
    intros texts. apply guarded_ret.
Qed.

End TraceFacts.

#[local] Hint Resolve guarded_ret guarded_query guarded_sleep guarded_until
  guarded_click_element guarded_type_text guarded_nonempty_texts
  guarded_try_except guarded_if : page_objects.

Ltac guarded_steps :=
  repeat first
    [ apply guarded_click_element
    | apply guarded_type_text
    | apply guarded_nonempty_texts
    | apply guarded_ret
    | apply guarded_query
    | apply guarded_sleep
    | apply guarded_until
    | apply guarded_command; reflexivity
    | apply guarded_try_except
    | apply guarded_if
    | apply guarded_bind; [ | intros ? ] ].

Section PageObjectTraces.

Context {W : Type} `{Selenium W}.

(** X1: The steps of every page-object method come in a fixed order: in the
    trace of every method, on every browser, a click comes right after a
    wait for clickability that returned normally, a [clear] right after a
    wait for presence that returned normally, and [send_keys] right after
    a [clear] that returned normally.  (A trace records the steps and
    their outcomes, not the elements they act on.) *)
Theorem page_objects_wait_before_they_act {R} (op : PageOp R) (w : W) :
  guarded None (events_of (perform op w)) = true.
Proof.
  revert w. change (Guarded (perform op)).
  destruct op; cbn [perform];
    unfold GooglePage.navigate_to, GooglePage.search,
      GooglePage.get_search_results, GooglePage.click_gmail,
      GooglePage.click_images, GooglePage.is_search_box_visible,
      FacebookPage.navigate_to, FacebookPage.enter_email,
      FacebookPage.enter_password, FacebookPage.click_login,
      FacebookPage.login, FacebookPage.click_forgot_password,
      FacebookPage.click_create_account, FacebookPage.is_email_field_visible,
      AmazonPage.navigate_to, AmazonPage.search_product,
      AmazonPage.get_product_results, AmazonPage.click_cart,
      AmazonPage.click_account, AmazonPage.is_search_box_visible,
      BasePage.get_text, BasePage.is_element_visible,
      BasePage.wait_for_page_load, BasePage.get_page_title,
      BasePage.get_current_url, BasePage.take_screenshot,
      BasePage.find_element, BasePage.find_elements,
      FacebookPage.enter_email, FacebookPage.enter_password,
      FacebookPage.click_login;
    guarded_steps.
Qed.

End PageObjectTraces.

Section PageObjectResults.

Context {W : Type} `{Selenium W}.

(** X3: [is_element_visible] never raises, on any browser, and it returns True
    exactly when the wait for visibility returned an element that then
    reports itself displayed; every failure of the wait or of
    [is_displayed] makes it False. *)
Theorem is_element_visible_total (locator : Locator) (w : W) :
  exists visible : bool,
    result_of (BasePage.is_element_visible locator w) = Ok visible /\
    (visible = true <->
     exists element w1,
       wait_until (visibility_of_element_located locator) w = (Ok element, w1) /\
       is_displayed w1 element = Ok true).
Proof.
  unfold BasePage.is_element_visible, try_except, result_of.
  rewrite bind_run. unfold until, query.
  destruct (wait_until (visibility_of_element_located locator) w)
    as [[element | x] w1]; cbn.
  - destruct (is_displayed w1 element) as [shown | x] eqn:Hshown; cbn.
    + exists shown. split; [ reflexivity | ]. split.
      * intros ->. eauto.
      * intros (el & w2 & Heq & Hd). injection Heq as <- <-. congruence.
    + exists false. split; [ reflexivity | ]. split; [ discriminate | ].
      intros (el & w2 & Heq & Hd). injection Heq as <- <-. congruence.
  - exists false. split; [ reflexivity | ]. split; [ discriminate | ].
    intros (el & w2 & Heq & _). discriminate.
Qed.



End PageObjectResults.

(** X4: While the page keeps the texts of the elements that the wait found
    ([during] holds of the states it goes through while it is read),
    [get_search_results] and [get_product_results] return exactly the
    non-empty texts of those elements, in document order: nothing
    non-empty is dropped and nothing is reordered, and the only event is
    the one wait. *)
Theorem result_lists_are_the_nonempty_texts {W : Type} `{Selenium W}
    `{LiveReads W} (during : W -> Prop) (w w1 : W)
    (results : list WebElement) (text_of : WebElement -> string) :
  during w1 ->
  (forall result w', result ∈ results -> during w' ->
                     during (snd (read_text result w'))) ->
  (forall result w', result ∈ results -> during w' ->
                     fst (read_text result w') = Ok (text_of result)) ->
  (wait_until (presence_of_all_elements_located GooglePage.SEARCH_RESULTS) w
     = (Ok results, w1) ->
   result_of (LivePage.get_search_results w)
   = Ok (List.filter nonempty (List.map text_of results)) /\
   events_of (LivePage.get_search_results w)
   = [EvUntil (presence_of_all_elements_located GooglePage.SEARCH_RESULTS) None]) /\
  (wait_until (presence_of_all_elements_located AmazonPage.SEARCH_RESULTS) w
     = (Ok results, w1) ->
   result_of (LivePage.get_product_results w)
   = Ok (List.filter nonempty (List.map text_of results)) /\
   events_of (LivePage.get_product_results w)
   = [EvUntil (presence_of_all_elements_located AmazonPage.SEARCH_RESULTS) None]).
Proof.
  intros Hw1 Hkeep Hread.
  destruct (live_nonempty_texts_exact during text_of results Hkeep Hread w1 Hw1)
    as (w2 & Htexts & _).
  split; intros Hwait;
    unfold LivePage.get_search_results, LivePage.get_product_results,
      BasePage.find_elements, result_of, events_of;
    rewrite bind_run; unfold until; rewrite Hwait, Htexts;
    split; reflexivity.
Qed.

Section PageObjectResultRuns.

Import Scripted Stale.

Lemma result_lists_are_the_nonempty_texts_witness :
  result_of (@LivePage.get_search_results World browser LivePage.still ready)
  = Ok ["Selenium"; "WebDriver"]%string.
Proof.
  destruct (@result_lists_are_the_nonempty_texts World browser LivePage.still
              (fun w' => w' = ready) ready ready
              [1; 2; 3]%nat (text_in (texts ready))) as [ Hgoogle _ ].
  - reflexivity.
  - intros result w' _ ->. reflexivity.
  - intros result w' _ ->. reflexivity.
  - apply Hgoogle. reflexivity.
Defined.


End PageObjectResultRuns.

(* ===================================================================== *)
(** * Part IV: the fixture, the tests and the demonstration                *)
(* ===================================================================== *)

Section SetupFacts.

Import TestBase.
Context {W : Type} `{Chrome W}.

(** X6: [setup_method] builds the page objects last and on the driver it has
    just stored: on a fresh instance the three page attributes exist
    exactly when setup returned normally, and then all three hold the
    driver that is in [self.driver]; after a failed setup the only
    attribute there can be is [driver]. *)
Theorem setup_method_builds_pages_on_its_driver (w0 : W) (r : Outcome unit)
    (self : gmap string Attr) (w1 : W) (evs : list Event) :
  setup_method ∅ w0 = (r, self, w1, evs) ->
  (is_ok r = true <-> is_Some (self !! "google_page")) /\
  (is_ok r = true ->
   exists d,
     self !! "driver" = Some (ADriver d) /\
     self !! "google_page" = Some (AGooglePage d) /\
     self !! "facebook_page" = Some (AFacebookPage d) /\
     self !! "amazon_page" = Some (AAmazonPage d) /\
     dom self = ({[ "driver"; "google_page"; "facebook_page"; "amazon_page" ]}
                 : gset string)) /\
  (is_ok r = false -> dom self ⊆ ({[ "driver" ]} : gset string)).
Proof.
  intros Hsetup. unfold setup_method in Hsetup.
  destruct (chromedriver_install w0) as [[ [] | e ] wa].
  - destruct (new_chrome wa) as [[ d | e ] wb].
    + destruct (execute_script d hide_webdriver wb) as [[ [] | e ] wc];
        injection Hsetup as <- <- _ _.
      * split; [ | split ].
        -- split; [ intros _ | reflexivity ].
           rewrite !lookup_insert_ne by discriminate.
           rewrite lookup_insert_eq. eauto.
        -- intros _. exists d.
           split; [ rewrite !lookup_insert_ne by discriminate;
                    apply lookup_insert_eq | ].
           split; [ rewrite !lookup_insert_ne by discriminate;
                    apply lookup_insert_eq | ].
           split; [ rewrite !lookup_insert_ne by discriminate;
                    apply lookup_insert_eq | ].
           split; [ apply lookup_insert_eq | ].
           rewrite !dom_insert_L, dom_empty_L. set_solver.
        -- discriminate.
      * split; [ | split ].
        -- split; [ discriminate | ].
           rewrite lookup_insert_ne by discriminate. rewrite lookup_empty.
           intros [? ?]. discriminate.
        -- discriminate.
        -- intros _. rewrite dom_insert_L, dom_empty_L. set_solver.
    + injection Hsetup as <- <- _ _. split; [ | split ].
      * split; [ discriminate | ]. rewrite lookup_empty. intros [? ?]. discriminate.
      * discriminate.
      * intros _. rewrite dom_empty_L. set_solver.
  - injection Hsetup as <- <- _ _. split; [ | split ].
    + split; [ discriminate | ]. rewrite lookup_empty. intros [? ?]. discriminate.
    + discriminate.
    + intros _. rewrite dom_empty_L. set_solver.
Qed.

End SetupFacts.

Section SetupRuns.

Import TestBase Scripted.

Lemma setup_method_builds_pages_witness :
  exists d,
    (<["amazon_page" := AAmazonPage 7]>
       (<["facebook_page" := AFacebookPage 7]>
          (<["google_page" := AGooglePage 7]>
             (<["driver" := ADriver 7]> (∅ : gmap string Attr))))) !! "driver"
    = Some (ADriver d) /\
    d = 7%nat.
Proof.
  destruct (@setup_method_builds_pages_on_its_driver World chrome ready
              (Ok tt)
              (<["amazon_page" := AAmazonPage 7]>
                 (<["facebook_page" := AFacebookPage 7]>
                    (<["google_page" := AGooglePage 7]>
                       (<["driver" := ADriver 7]> ∅))))
              ready
              [EvCommand "install" None; EvCommand "Chrome" None;
               EvCommand "execute_script" None]
              eq_refl) as (_ & Hpages & _).
  destruct (Hpages eq_refl) as (d & Hdriver & Hgoogle & _).
  exists d. split; [ exact Hdriver | ].
  rewrite !lookup_insert_ne in Hgoogle by discriminate.
  rewrite lookup_insert_eq in Hgoogle. congruence.
Defined.

End SetupRuns.

Section EmitsFacts.

Context {W : Type} `{Selenium W}.

Lemma emits_ret {A} P (a : A) : Emits P (mret a : M W A).
Proof. intros w. constructor. Qed.

Lemma emits_query {A} P (q : W -> Outcome A) : Emits P (query q).
Proof. intros w. constructor. Qed.

Lemma emits_sleep (P : Event -> Prop) seconds :
  P (EvSleep seconds) -> Emits P (sleep seconds).
Proof. intros HP w. cbn. repeat constructor. exact HP. Qed.

Lemma emits_until {R} (P : Event -> Prop) (c : ExpectedCondition R) :
  (forall failure, P (EvUntil c failure)) -> Emits P (until c).
Proof.
  intros HP w. unfold until, events_of. destruct (wait_until c w).
  cbn. repeat constructor. apply HP.
Qed.

Lemma emits_command {A} (P : Event -> Prop) name (c : W -> Outcome A * W) :
  (forall failure, P (EvCommand name failure)) -> Emits P (command name c).
Proof.
  intros HP w. unfold command, events_of. destruct (c w).
  cbn. repeat constructor. apply HP.
Qed.

Lemma emits_bind {A B} P (m : M W A) (k : A -> M W B) :
  Emits P m -> (forall a, Emits P (k a)) -> Emits P (m ≫= k).
Proof.
  intros Hm Hk w. rewrite bind_run.
  specialize (Hm w). unfold events_of in *.
  destruct (m w) as [[[a | x] w1] evs1]; cbn [fst snd] in *.
  - specialize (Hk a w1). unfold events_of in Hk.
    destruct (k a w1) as [[r w2] evs2]. cbn [fst snd] in *.
    apply Forall_app. split; assumption.
  - exact Hm.
Qed.

Lemma emits_try_except {A} P (m handler : M W A) :
  Emits P m -> Emits P handler -> Emits P (try_except m handler).
Proof.
  intros Hm Hh w. unfold try_except.
  specialize (Hm w). unfold events_of in *.
  destruct (m w) as [[[a | x] w1] evs1]; cbn [fst snd] in *.
  - exact Hm.
  - specialize (Hh w1). unfold events_of in Hh.
    destruct (handler w1) as [[r w2] evs2]. cbn [fst snd] in *.
    apply Forall_app. split; assumption.
Qed.

Lemma emits_if {A} P (b : bool) (m1 m2 : M W A) :
  Emits P m1 -> Emits P m2 -> Emits P (if b then m1 else m2).
Proof. destruct b; auto. Qed.

Lemma emits_nonempty_texts P results : Emits P (BasePage.nonempty_texts results).
Proof.
  induction results as [ | result rest IH ]; cbn [BasePage.nonempty_texts].
  - apply emits_ret.
  - apply emits_bind; [ apply emits_query | ].
    intros shown. apply emits_if; [ exact IH | ].
    apply emits_bind; [ apply emits_query | ].
    intros text. apply emits_bind; [ exact IH | ].
    intros texts. apply emits_ret.
Qed.

Lemma commands_named_app name (evs1 evs2 : list Event) :
  commands_named name (evs1 ++ evs2)
  = commands_named name evs1 ++ commands_named name evs2.
Proof. apply omap_app. Qed.

End EmitsFacts.

Ltac emits_steps :=
  repeat first
    [ apply emits_nonempty_texts
    | apply emits_ret
    | apply emits_query
    | apply emits_sleep; reflexivity
    | apply emits_until; intros ?; reflexivity
    | apply emits_command; intros ?; reflexivity
    | apply emits_try_except
    | apply emits_if
    | apply emits_bind; [ | intros ? ] ].

Ltac unfold_page_objects :=
  unfold GooglePage.navigate_to, GooglePage.search,
    GooglePage.get_search_results, GooglePage.click_gmail,
    GooglePage.click_images, GooglePage.is_search_box_visible,
    FacebookPage.navigate_to, FacebookPage.login,
    FacebookPage.click_forgot_password,
    FacebookPage.click_create_account, FacebookPage.is_email_field_visible,
    AmazonPage.navigate_to, AmazonPage.search_product,
    AmazonPage.get_product_results, AmazonPage.click_cart,
    AmazonPage.click_account, AmazonPage.is_search_box_visible,
    FacebookPage.enter_email, FacebookPage.enter_password,
    FacebookPage.click_login;
  unfold BasePage.click_element, BasePage.type_text, BasePage.get_text,
    BasePage.is_element_visible, BasePage.wait_for_page_load,
    BasePage.get_page_title, BasePage.get_current_url,
    BasePage.take_screenshot;
  unfold BasePage.find_element, BasePage.find_elements.


Section TestFacts.

Import PageObjectModel.
Context {W : Type} `{Selenium W} `{Chrome W} `{DirectQueries W}.

Lemma tbind_run {A B} (m : T W A) (k : A -> T W B) (w : W) :
  (m ≫= k) w =
  match m w with
  | (Passed a, w1, evs1) =>
      match k a w1 with
      | (r, w2, evs2) => (r, w2, evs1 ++ evs2)
      end
  | (Errored e, w1, evs1) => (Errored e, w1, evs1)
  end.
Proof. reflexivity. Qed.

Lemma temits_lift {A} P (m : M W A) : Emits P m -> TEmits P (lift m).
Proof.
  intros Hm w. specialize (Hm w). unfold lift, events_of in *.
  destruct (m w) as [[[a | x] w1] evs]; exact Hm.
Qed.

Lemma temits_assert P (condition : bool) message :
  TEmits P (assert_that condition message : T W unit).
Proof. intros w. unfold assert_that. destruct condition; constructor. Qed.

Lemma temits_bind {A B} P (m : T W A) (k : A -> T W B) :
  TEmits P m -> (forall a, TEmits P (k a)) -> TEmits P (m ≫= k).
Proof.
  intros Hm Hk w. rewrite tbind_run. specialize (Hm w).
  destruct (m w) as [[[a | x] w1] evs1]; cbn [fst snd] in *.
  - specialize (Hk a w1).
    destruct (k a w1) as [[r w2] evs2]. cbn [fst snd] in *.
    apply Forall_app. split; assumption.
  - exact Hm.
Qed.

(** A visibility check whose wait raises returns False and does nothing
    else. *)
Lemma visibility_check_caught (locator : Locator) (w w1 : W) (e : Exn) :
  wait_until (visibility_of_element_located locator) w = (Raise e, w1) ->
  BasePage.is_element_visible locator w
  = (Ok false, w1, [EvUntil (visibility_of_element_located locator) (Some e)]).
Proof.
  intros Hwait. unfold BasePage.is_element_visible, try_except.
  rewrite bind_run. unfold until. rewrite Hwait. reflexivity.
Qed.

(** X7: When the page has loaded but the wait for the first field raises,
    whatever it raises, each test ends in the AssertionError of its first
    [assert], with the message of that assert; nothing is typed, clicked
    or slept, and the exception of the wait is not what the test reports. *)
Theorem tests_report_a_failed_wait_as_an_assertion (w w1 w2 : W)
    (evs1 : list Event) (e : Exn) :
  (GooglePage.navigate_to w = (Ok tt, w1, evs1) ->
   wait_until (visibility_of_element_located GooglePage.SEARCH_BOX) w1
     = (Raise e, w2) ->
   test_google_search w
   = (Errored (AssertionError "Search box should be visible"), w2,
      evs1 ++ [EvUntil (visibility_of_element_located GooglePage.SEARCH_BOX)
                 (Some e)])) /\
  (FacebookPage.navigate_to w = (Ok tt, w1, evs1) ->
   wait_until (visibility_of_element_located FacebookPage.EMAIL_FIELD) w1
     = (Raise e, w2) ->
   test_facebook_login_form w
   = (Errored (AssertionError "Email field should be visible"), w2,
      evs1 ++ [EvUntil (visibility_of_element_located FacebookPage.EMAIL_FIELD)
                 (Some e)])) /\
  (AmazonPage.navigate_to w = (Ok tt, w1, evs1) ->
   wait_until (visibility_of_element_located AmazonPage.SEARCH_BOX) w1
     = (Raise e, w2) ->
   test_amazon_product_search w
   = (Errored (AssertionError "Search box should be visible"), w2,
      evs1 ++ [EvUntil (visibility_of_element_located AmazonPage.SEARCH_BOX)
                 (Some e)])).
Proof.
  split; [ | split ]; intros Hnav Hwait;
    unfold test_google_search, test_facebook_login_form,
      test_amazon_product_search;
    rewrite tbind_run; unfold lift at 1; rewrite Hnav;
    rewrite tbind_run; unfold lift at 1;
    unfold GooglePage.is_search_box_visible,
      FacebookPage.is_email_field_visible, AmazonPage.is_search_box_visible;
    rewrite (visibility_check_caught _ _ _ _ Hwait);
    reflexivity.
Qed.

(** The shape that the Google and the Amazon test share: a run that
    passes went through every step, each in the world that the step
    before left. *)
Lemma search_test_pass (navigate : M W unit) (visible : M W bool)
    (search : M W unit) (results : M W (list string))
    (message1 message2 : string) (shot : M W unit) (w w' : W)
    (evs : list Event) :
  Sleepless navigate -> Sleepless visible -> SleepsLast 2 search ->
  Sleepless results -> Sleepless shot ->
  (lift navigate ;;
   shown ← lift visible;
   assert_that shown message1 ;;
   lift search ;;
   found ← lift results;
   assert_that (0 <? length found)%nat message2 ;;
   lift shot : T W unit) w = (Passed tt, w', evs) ->
  exists w1 evs1 w2 evs2 w3 evs3 found w4 evs4 evs5,
    navigate w = (Ok tt, w1, evs1) /\
    visible w1 = (Ok true, w2, evs2) /\
    search w2 = (Ok tt, w3, evs3) /\
    results w3 = (Ok found, w4, evs4) /\ found <> [] /\
    shot w4 = (Ok tt, w', evs5) /\
    evs = evs1 ++ evs2 ++ evs3 ++ evs4 ++ evs5 /\
    direct_sleeps evs = [2%Z].
Proof.
  intros Snav Svis Ssearch Sres Sshot Hrun.
  rewrite tbind_run in Hrun. unfold lift at 1 in Hrun.
  specialize (Snav w). unfold events_of in Snav.
  destruct (navigate w) as [[[[] | x] w1] evs1] eqn:Hnav; [ | discriminate ].
  rewrite tbind_run in Hrun. unfold lift at 1 in Hrun.
  specialize (Svis w1). unfold events_of in Svis.
  destruct (visible w1) as [[[shown | x] w2] evs2] eqn:Hvis; [ | discriminate ].
  rewrite tbind_run in Hrun. unfold assert_that at 1 in Hrun.
  destruct shown; [ | discriminate ].
  rewrite tbind_run in Hrun. unfold lift at 1 in Hrun.
  specialize (Ssearch w2). unfold events_of, result_of in Ssearch.
  destruct (search w2) as [[[[] | x] w3] evs3] eqn:Hsearch; [ | discriminate ].
  rewrite tbind_run in Hrun. unfold lift at 1 in Hrun.
  specialize (Sres w3). unfold events_of in Sres.
  destruct (results w3) as [[[found | x] w4] evs4] eqn:Hres; [ | discriminate ].
  rewrite tbind_run in Hrun. unfold assert_that at 1 in Hrun.
  destruct (0 <? length found)%nat eqn:Hlen; [ | discriminate ].
  unfold lift in Hrun.
  specialize (Sshot w4). unfold events_of in Sshot.
  destruct (shot w4) as [[[[] | x] w5] evs5] eqn:Hshot; [ | discriminate ].
  injection Hrun as <- <-. cbn [fst snd is_ok] in *.
  exists w1, evs1, w2, evs2, w3, evs3, found, w4, evs4, evs5.
  split; [ reflexivity | ]. split; [ exact Hvis | ].
  split; [ exact Hsearch | ]. split; [ exact Hres | ].
  split; [ intros ->; discriminate | ].
  split; [ exact Hshot | ].
  split; [ reflexivity | ].
  rewrite !direct_sleeps_app, Snav, Svis, Ssearch, Sres, Sshot. reflexivity.
Qed.

(** X8: A search test passes only if every step of it returned normally, each
    in the world that the step before left: the page was loaded, the
    search box was reported visible, the search was done, the list that
    [get_search_results] (or [get_product_results]) returned in the world
    after the search was not empty, and the screenshot was saved.  The
    events of the run are the events of these steps, in this order, and
    the run has slept once, for two seconds. *)
Theorem search_tests_pass_only_with_results (w w' : W) (evs : list Event) :
  (test_google_search w = (Passed tt, w', evs) ->
   exists w1 evs1 w2 evs2 w3 evs3 titles w4 evs4 evs5,
     GooglePage.navigate_to w = (Ok tt, w1, evs1) /\
     GooglePage.is_search_box_visible w1 = (Ok true, w2, evs2) /\
     GooglePage.search "Selenium automation testing" w2 = (Ok tt, w3, evs3) /\
     GooglePage.get_search_results w3 = (Ok titles, w4, evs4) /\
     titles <> [] /\
     BasePage.take_screenshot "google_search_results" w4 = (Ok tt, w', evs5) /\
     evs = evs1 ++ evs2 ++ evs3 ++ evs4 ++ evs5 /\
     direct_sleeps evs = [2%Z]) /\
  (test_amazon_product_search w = (Passed tt, w', evs) ->
   exists w1 evs1 w2 evs2 w3 evs3 titles w4 evs4 evs5,
     AmazonPage.navigate_to w = (Ok tt, w1, evs1) /\
     AmazonPage.is_search_box_visible w1 = (Ok true, w2, evs2) /\
     AmazonPage.search_product "laptop" w2 = (Ok tt, w3, evs3) /\
     AmazonPage.get_product_results w3 = (Ok titles, w4, evs4) /\
     titles <> [] /\
     BasePage.take_screenshot "amazon_search_results" w4 = (Ok tt, w', evs5) /\
     evs = evs1 ++ evs2 ++ evs3 ++ evs4 ++ evs5 /\
     direct_sleeps evs = [2%Z]).
Proof.
  split; intros Hrun.
  - exact (search_test_pass _ _ _ _ _ _ _ _ _ _
             (perform_sleepless google_navigate_to eq_refl)
             (perform_sleepless google_is_search_box_visible eq_refl)
             (perform_sleeps_last (google_search _) eq_refl)
             (perform_sleepless google_get_search_results eq_refl)
             (perform_sleepless (base_take_screenshot _) eq_refl)
             Hrun).
  - exact (search_test_pass _ _ _ _ _ _ _ _ _ _
             (perform_sleepless amazon_navigate_to eq_refl)
             (perform_sleepless amazon_is_search_box_visible eq_refl)
             (perform_sleeps_last (amazon_search_product _) eq_refl)
             (perform_sleepless amazon_get_product_results eq_refl)
             (perform_sleepless (base_take_screenshot _) eq_refl)
             Hrun).
Qed.

End TestFacts.

Section FormTestFacts.

Import PageObjectModel.
Context {W : Type} `{Selenium W} `{DirectQueries W}.

Lemma quiet_no_click_no_sleep (evs : list Event) :
  Forall (fun ev => quiet ev = true) evs ->
  commands_named "click" evs = [] /\ direct_sleeps evs = [].
Proof.
  induction 1 as [ | ev rest Hev _ [IHc IHs] ]; [ split; reflexivity | ].
  change (ev :: rest) with ([ev] ++ rest).
  rewrite commands_named_app, direct_sleeps_app, IHc, IHs, !app_nil_r.
  destruct ev as [ R c f | s | name f ]; cbn in *.
  - split; reflexivity.
  - discriminate.
  - destruct (String.eqb name "click"); [ discriminate | ].
    split; reflexivity.
Qed.

(** X9: The form test fills the form "without actual login": on no browser
    does it click anything or sleep.  It passes only if every step before
    the last [assert] returned normally, each in the world that the step
    before left, and the value attribute of the element that
    [driver.find_element] returned for the locator of the e-mail field,
    read after both fields were typed, is the address that was typed. *)
Theorem form_test_never_clicks (w : W) :
  commands_named "click" (snd (test_facebook_login_form w)) = [] /\
  direct_sleeps (snd (test_facebook_login_form w)) = [] /\
  (verdict_of (test_facebook_login_form w) = Passed tt ->
   exists w1 evs1 w2 evs2 w3 evs3 w4 evs4 element w5,
     FacebookPage.navigate_to w = (Ok tt, w1, evs1) /\
     FacebookPage.is_email_field_visible w1 = (Ok true, w2, evs2) /\
     FacebookPage.enter_email "test@example.com" w2 = (Ok tt, w3, evs3) /\
     FacebookPage.enter_password "testpassword" w3 = (Ok tt, w4, evs4) /\
     driver_find_element FacebookPage.EMAIL_FIELD w4 = (Ok element, w5) /\
     element_get_attribute w5 element "value"
     = Ok (Some "test@example.com"%string)).
Proof.
  assert (Hquiet : TEmits (fun ev => quiet ev = true) test_facebook_login_form).
  { unfold test_facebook_login_form.
    repeat first
      [ apply temits_assert
      | apply temits_bind; [ | intros ? ]
      | apply temits_lift; unfold_page_objects; emits_steps ]. }
  destruct (quiet_no_click_no_sleep _ (Hquiet w)) as [Hclick Hsleep].
  split; [ exact Hclick | ]. split; [ exact Hsleep | ].
  clear Hquiet Hclick Hsleep. unfold verdict_of, test_facebook_login_form.
  intros Hpass.
  rewrite tbind_run in Hpass. unfold lift at 1 in Hpass.
  destruct (FacebookPage.navigate_to w) as [[[[] | x] w1] evs1] eqn:Hnav;
    [ | discriminate ].
  rewrite tbind_run in Hpass. unfold lift at 1 in Hpass.
  destruct (FacebookPage.is_email_field_visible w1) as [[[shown | x] w2] evs2]
    eqn:Hvis; [ | discriminate ].
  rewrite tbind_run in Hpass. unfold assert_that at 1 in Hpass.
  destruct shown; [ | discriminate ].
  rewrite tbind_run in Hpass. unfold lift at 1 in Hpass.
  destruct (FacebookPage.enter_email "test@example.com" w2)
    as [[[[] | x] w3] evs3] eqn:Hemail; [ | discriminate ].
  rewrite tbind_run in Hpass. unfold lift at 1 in Hpass.
  destruct (FacebookPage.enter_password "testpassword" w3)
    as [[[[] | x] w4] evs4] eqn:Hpassword; [ | discriminate ].
  rewrite tbind_run in Hpass. unfold lift at 1, command in Hpass.
  destruct (driver_find_element FacebookPage.EMAIL_FIELD w4)
    as [[element | x] w5] eqn:Hfind; [ | discriminate ].
  rewrite tbind_run in Hpass. unfold lift at 1, query in Hpass.
  destruct (element_get_attribute w5 element "value") as [value | x] eqn:Hvalue;
    [ | discriminate ].
  rewrite tbind_run in Hpass. unfold assert_that at 1 in Hpass.
  destruct (bool_decide (value = Some "test@example.com"%string)) eqn:Hsame;
    [ | discriminate ].
  apply bool_decide_eq_true_1 in Hsame. subst value.
  exists w1, evs1, w2, evs2, w3, evs3, w4, evs4, element, w5.
  split; [ reflexivity | ]. split; [ exact Hvis | ].
  split; [ exact Hemail | ]. split; [ exact Hpassword | ].
  split; [ exact Hfind | exact Hvalue ].
Qed.

End FormTestFacts.

Section DemonstrationFacts.

Import PageObjectModel.
Context {W : Type} `{Selenium W} `{Chrome W}.

Lemma keeps_browser_no_quit (evs : list Event) :
  Forall (fun ev => keeps_browser ev = true) evs ->
  commands_named "Chrome" evs = [] /\ commands_named "quit" evs = [].
Proof.
  induction 1 as [ | ev rest Hev _ [IHc IHq] ]; [ split; reflexivity | ].
  change (ev :: rest) with ([ev] ++ rest).
  rewrite !commands_named_app, IHc, IHq, !app_nil_r.
  destruct ev as [ R c f | s | name f ]; cbn in *.
  - split; reflexivity.
  - split; reflexivity.
  - destruct (String.eqb name "quit"); [ discriminate | ].
    destruct (String.eqb name "Chrome"); [ discriminate | ].
    split; reflexivity.
Qed.

Lemma demonstration_keeps_browser (driver : Driver) :
  Emits (fun ev => keeps_browser ev = true)
    (try_except
       (command "execute_script" (execute_script driver TestBase.hide_webdriver) ;;
        demonstration)
       (mret tt)).
Proof.
  apply emits_try_except; [ | apply emits_ret ].
  apply emits_bind; [ apply emits_command; intros ?; reflexivity | intros _ ].
  unfold demonstration. unfold_page_objects. emits_steps.
Qed.

(** X10: [demonstrate_pom_pattern] quits the browser exactly when it has
    created one: if [webdriver.Chrome] returned, one [quit] is sent,
    whatever the page operations or [execute_script] raised in between,
    and the outcome of the function is the outcome of that [quit]; if
    Chrome was not created, no [quit] is sent and the function returns
    normally.  [main] never raises. *)
Theorem demonstrate_pom_pattern_quits_what_it_created (w : W) :
  match commands_named "Chrome" (events_of (demonstrate_pom_pattern w)) with
  | [None] =>
      commands_named "quit" (events_of (demonstrate_pom_pattern w))
      = [error_of (result_of (demonstrate_pom_pattern w))]
  | _ =>
      commands_named "quit" (events_of (demonstrate_pom_pattern w)) = [] /\
      result_of (demonstrate_pom_pattern w) = Ok tt
  end /\
  result_of (main w) = Ok tt.
Proof.
  split.
  - unfold demonstrate_pom_pattern, events_of, result_of, command.
    destruct (chromedriver_install w) as [[[] | x] w1]; [ | split; reflexivity ].
    destruct (new_chrome w1) as [[driver | x] w2]; [ | split; reflexivity ].
    pose proof (demonstration_keeps_browser driver w2) as Hbody.
    unfold events_of in Hbody.
    fold (command "execute_script"
            (execute_script driver TestBase.hide_webdriver)).
    destruct (try_except
                (command "execute_script"
                   (execute_script driver TestBase.hide_webdriver) ;;
                 demonstration) (mret tt) w2) as [[r w3] evs3] eqn:Hrun.
    cbn [snd] in Hbody.
    destruct (keeps_browser_no_quit evs3 Hbody) as [HChrome Hquit].
    destruct (driver_quit driver w3) as [rq w4]. cbn [fst snd].
    rewrite !commands_named_app, HChrome, Hquit. reflexivity.
  - unfold main, try_except, result_of.
    destruct (demonstrate_pom_pattern w) as [[[[] | x] w1] evs1]; reflexivity.
Qed.

End DemonstrationFacts.

Section TestRuns.

Import PageObjectModel Scripted Hidden.

Lemma tests_report_a_failed_wait_witness :
  @test_google_search World hidden_browser ready
  = (Errored (AssertionError "Search box should be visible"), ready,
     [EvCommand "get" None; EvUntil document_ready None;
      EvUntil (visibility_of_element_located GooglePage.SEARCH_BOX)
        (Some TimeoutException)]).
Proof.
  apply (proj1 (@tests_report_a_failed_wait_as_an_assertion World hidden_browser
                  direct ready ready ready
                  [EvCommand "get" None; EvUntil document_ready None]
                  TimeoutException)).
  - reflexivity.
  - reflexivity.
Defined.

Lemma search_tests_pass_witness :
  exists w' evs,
    test_google_search ready = (Passed tt, w', evs) /\
    direct_sleeps evs = [2%Z].
Proof.
  eexists _, _. split.
  - reflexivity.
  - destruct (proj1 (@search_tests_pass_only_with_results World browser ready _ _)
                eq_refl)
      as (w1 & evs1 & w2 & evs2 & w3 & evs3 & titles & w4 & evs4 & evs5
          & _ & _ & _ & _ & _ & _ & _ & Hsleep).
    exact Hsleep.
Defined.

End TestRuns.

Example form_test_passes :
  PageObjectModel.verdict_of (PageObjectModel.test_facebook_login_form Scripted.ready)
  = PageObjectModel.Passed tt.
Proof. reflexivity. Qed.

Example demonstration_quits_once :
  commands_named "quit"
    (events_of (PageObjectModel.demonstrate_pom_pattern Scripted.ready)) = [None].
Proof. reflexivity. Qed.

Example demonstration_on_a_stuck_page_still_quits :
  commands_named "quit"
    (events_of (PageObjectModel.demonstrate_pom_pattern Scripted.stuck)) = [None] /\
  result_of (PageObjectModel.demonstrate_pom_pattern Scripted.stuck) = Ok tt.
Proof. split; reflexivity. Qed.

Example demonstration_without_chrome_does_not_quit :
  events_of (PageObjectModel.demonstrate_pom_pattern Scripted.no_chrome)
  = [EvCommand "install" None; EvCommand "Chrome" (Some WebDriverException)].
Proof. reflexivity. Qed.

(* ===================================================================== *)
(** * Part V: the demonstrations of the wait strategies                    *)
(* ===================================================================== *)

Section LessonFacts.

Import WaitStrategies.
Context {W : Type} `{Selenium W} `{Chrome W} `{DirectQueries W} `{Lesson W}.

(** A body inside [try ... except Exception] with a handler that only
    prints returns normally. *)
Lemma try_except_ret_total (m : M W unit) (w : W) :
  result_of (try_except m (mret tt) w) = Ok tt.
Proof.
  unfold try_except, result_of. destruct (m w) as [[[[] | x] w1] evs1]; reflexivity.
Qed.

Lemma emits_except_timeout {A} P (m handler : M W A) :
  Emits P m -> Emits P handler -> Emits P (except_timeout m handler).
Proof.
  intros Hm Hh w. unfold except_timeout.
  specialize (Hm w). unfold events_of in *.
  destruct (m w) as [[[a | x] w1] evs1]; cbn [fst snd] in *.
  - exact Hm.
  - destruct x; try exact Hm.
    specialize (Hh w1). unfold events_of in Hh.
    destruct (handler w1) as [[r w2] evs2]. cbn [fst snd] in *.
    apply Forall_app. split; assumption.
Qed.

Lemma lesson_event_commands (evs : list Event) :
  Forall (fun ev => lesson_event ev = true) evs ->
  commands_named "Chrome" evs = [] /\
  commands_named "execute_script" evs = [] /\
  commands_named "quit" evs = [].
Proof.
  induction 1 as [ | ev rest Hev _ (IHc & IHs & IHq) ];
    [ repeat split | ].
  change (ev :: rest) with ([ev] ++ rest).
  rewrite !commands_named_app, IHc, IHs, IHq, !app_nil_r.
  destruct ev as [ R c f | s | name f ]; [ repeat split | repeat split | ].
  cbn in Hev. apply negb_true_iff, bool_decide_eq_false_1 in Hev.
  cbn. repeat split.
  - destruct (String.eqb_spec name "Chrome") as [ -> | ]; [ | reflexivity ].
    exfalso. apply Hev. set_solver.
  - destruct (String.eqb_spec name "execute_script") as [ -> | ]; [ | reflexivity ].
    exfalso. apply Hev. set_solver.
  - destruct (String.eqb_spec name "quit") as [ -> | ]; [ | reflexivity ].
    exfalso. apply Hev. set_solver.
Qed.

End LessonFacts.

Ltac lesson_steps :=
  repeat first
    [ apply emits_ret
    | apply emits_command; intros ?; reflexivity
    | apply emits_try_except
    | apply emits_except_timeout
    | apply emits_bind; [ | intros ? ] ].

Section LessonClaims.

Import WaitStrategies.
Context {W : Type} `{Selenium W} `{Chrome W} `{DirectQueries W} `{Lesson W}.

Lemma demonstrations_lesson_events :
  Emits (fun ev => lesson_event ev = true) (try_except demonstrations (mret tt)).
Proof.
  unfold demonstrations, demonstrate_implicit_wait, demonstrate_explicit_wait,
    demonstrate_fluent_wait, demonstrate_expected_conditions,
    demonstrate_custom_wait_conditions, demonstrate_wait_timeout_handling,
    demonstrate_wait_best_practices, wait_until_with.
  lesson_steps.
Qed.

(** X11: [demonstrate_implicit_wait] clears the policy only at the end of its
    [try] block: it never raises, the clearing call
    [implicitly_wait(0)] is sent only after the ten-second policy was
    set, the page was loaded and the search box was found, and when the
    lookup of the search box raises, the ten-second policy has been set
    and is not cleared: it stays in force for what runs next. *)
Theorem demonstrate_implicit_wait_clears_only_on_success (w : W) :
  result_of (demonstrate_implicit_wait w) = Ok tt /\
  (commands_named "implicitly_wait(0)" (events_of (demonstrate_implicit_wait w)) = [] \/
   (commands_named "implicitly_wait(10)" (events_of (demonstrate_implicit_wait w))
      = [None] /\
    commands_named "get" (events_of (demonstrate_implicit_wait w)) = [None] /\
    commands_named "find_element" (events_of (demonstrate_implicit_wait w))
      = [None])) /\
  (forall e,
      commands_named "find_element" (events_of (demonstrate_implicit_wait w))
        = [Some e] ->
      commands_named "implicitly_wait(10)" (events_of (demonstrate_implicit_wait w))
        = [None] /\
      commands_named "implicitly_wait(0)" (events_of (demonstrate_implicit_wait w))
        = []).
Proof.
  destruct (demonstrate_implicit_wait w) as [[r w'] evs] eqn:Hrun.
  unfold result_of, events_of. cbn [fst snd].
  unfold demonstrate_implicit_wait, try_except in Hrun.
  rewrite bind_run in Hrun. unfold command at 1 in Hrun.
  destruct (driver_implicitly_wait 10 w) as [[[] | x] w1].
  2: { injection Hrun as <- <- <-. split; [ reflexivity | ].
       split; [ left; reflexivity | intros e He; vm_compute in He; discriminate ]. }
  rewrite bind_run in Hrun. unfold command at 1 in Hrun.
  destruct (driver_get "https://www.google.com" w1) as [[[] | x] w2].
  2: { injection Hrun as <- <- <-. split; [ reflexivity | ].
       split; [ left; reflexivity | intros e He; vm_compute in He; discriminate ]. }
  rewrite bind_run in Hrun. unfold command in Hrun.
  destruct (driver_find_element (NAME, "q"%string) w2) as [[element | x] w3].
  2: { injection Hrun as <- <- <-. split; [ reflexivity | ].
       split; [ left; reflexivity | intros e _; split; reflexivity ]. }
  destruct (driver_implicitly_wait 0 w3) as [[[] | x] w4];
    injection Hrun as <- <- <-;
    (split; [ reflexivity | ]);
    (split; [ right; split; [ reflexivity | split; reflexivity ]
            | intros e He; vm_compute in He; discriminate ]).
Qed.

(** What a demonstration that starts with [driver.get] leaves in the
    trace, whatever happens in it. *)
Lemma starts_with_get (url : string) (rest : M W unit) (w : W) :
  result_of (try_except (command "get" (driver_get url) ;; rest) (mret tt) w) = Ok tt /\
  (1 <= length (commands_named "get"
                  (events_of (try_except (command "get" (driver_get url) ;; rest)
                                (mret tt) w))))%nat.
Proof.
  split; [ apply try_except_ret_total | ].
  unfold try_except, events_of. rewrite bind_run. unfold command.
  destruct (driver_get url w) as [[[] | x] w1].
  - destruct (rest w1) as [[[[] | x] w2] evs2]; cbn; lia.
  - cbn. lia.
Qed.

Lemma gets_of_bind (m k : M W unit) (w : W) (n : nat) :
  result_of (m w) = Ok tt ->
  (1 <= length (commands_named "get" (events_of (m w))))%nat ->
  (n <= length (commands_named "get" (events_of (k (world_of (m w))))))%nat ->
  (S n <= length (commands_named "get" (events_of ((m ;; k) w))))%nat.
Proof.
  intros Hok Hm Hk. unfold events_of, result_of, world_of in *.
  change ((m ;; k) w) with ((m ≫= fun _ => k) w). rewrite bind_run.
  destruct (m w) as [[[[] | x] w1] evs1]; [ | discriminate ]. cbn [fst snd] in *.
  destruct (k w1) as [[r w2] evs2]. cbn [fst snd] in *.
  rewrite commands_named_app, length_app. lia.
Qed.

(** The six demonstrations after the first each load their page, whatever
    the demonstrations before them ran into. *)
Lemma demonstrations_get (w : W) :
  (6 <= length (commands_named "get" (events_of (demonstrations w))))%nat.
Proof.
  unfold demonstrations.
  change ((demonstrate_implicit_wait ;; ?k) w) with
    ((demonstrate_implicit_wait ≫= fun _ => k) w).
  unfold events_of. rewrite bind_run.
  pose proof (try_except_ret_total
                (command "implicitly_wait(10)" (driver_implicitly_wait 10) ;;
                 command "get" (driver_get "https://www.google.com") ;;
                 _ ← command "find_element" (driver_find_element (NAME, "q"%string));
                 command "implicitly_wait(0)" (driver_implicitly_wait 0)) w) as Hfirst.
  fold demonstrate_implicit_wait in Hfirst. unfold result_of in Hfirst.
  destruct (demonstrate_implicit_wait w) as [[[[] | x] w1] evs1]; [ | discriminate ].
  match goal with
  | |- context [ ?rest w1 ] =>
      assert (Hrest : (6 <= length (commands_named "get" (events_of (rest w1))))%nat)
  end.
  { unfold demonstrate_explicit_wait, demonstrate_fluent_wait,
      demonstrate_expected_conditions, demonstrate_custom_wait_conditions,
      demonstrate_wait_timeout_handling, demonstrate_wait_best_practices.
    repeat (apply gets_of_bind;
            [ apply starts_with_get | apply starts_with_get | ]).
    apply starts_with_get. }
  unfold events_of in Hrest.
  match goal with
  | |- context [ ?rest w1 ] => destruct (rest w1) as [[r w2] evs2]
  end.
  cbn [snd] in *. rewrite commands_named_app, length_app. lia.
Qed.

(** X12: [main] quits the driver exactly when [setup_driver] returned it.  If
    the script of [setup_driver] ran, every demonstration is started: at
    least six [driver.get] calls are sent, whatever fails on the way
    (whether or not these calls themselves succeed); one [quit] is sent
    and its outcome is the outcome of [main].  If Chrome was created but
    the script then raised, the driver never reaches [main]: [main] sends
    no [quit] for it and returns normally. *)
Theorem main_quits_only_a_driver_it_was_given (w : W) :
  match commands_named "execute_script" (events_of (main w)) with
  | [None] =>
      commands_named "quit" (events_of (main w)) = [error_of (result_of (main w))] /\
      (6 <= length (commands_named "get" (events_of (main w))))%nat
  | _ =>
      commands_named "quit" (events_of (main w)) = [] /\
      result_of (main w) = Ok tt
  end /\
  (forall e,
      commands_named "execute_script" (events_of (main w)) = [Some e] ->
      commands_named "Chrome" (events_of (main w)) = [None] /\
      commands_named "quit" (events_of (main w)) = []).
Proof.
  destruct (main w) as [[r w'] evs] eqn:Hrun.
  unfold result_of, events_of. cbn [fst snd].
  unfold main, setup_driver in Hrun.
  rewrite bind_run in Hrun. unfold command at 1 in Hrun.
  destruct (chromedriver_install w) as [[[] | x] w1].
  2: { injection Hrun as <- <- <-.
       split; [ split; reflexivity | intros e He; vm_compute in He; discriminate ]. }
  rewrite bind_run in Hrun. unfold command at 1 in Hrun.
  destruct (new_chrome w1) as [[driver | x] w2].
  2: { injection Hrun as <- <- <-.
       split; [ split; reflexivity | intros e He; vm_compute in He; discriminate ]. }
  rewrite bind_run in Hrun. unfold command at 1 in Hrun.
  destruct (execute_script driver TestBase.hide_webdriver w2) as [[[] | x] w3].
  2: { injection Hrun as <- <- <-.
       split; [ split; reflexivity | intros e _; split; reflexivity ]. }
  cbn [mret M_ret ret fst snd app] in Hrun.
  pose proof (demonstrations_lesson_events w3) as Hlesson.
  pose proof (demonstrations_get w3) as Hget.
  unfold events_of, try_except in Hlesson, Hget, Hrun.
  destruct (demonstrations w3) as [[[[] | x] w4] evs4]; cbn [fst snd mret M_ret ret] in *;
    rewrite ?app_nil_r in *;
    destruct (lesson_event_commands evs4 Hlesson) as (HChrome & Hscript & Hquit);
    unfold command in Hrun; destruct (driver_quit driver w4) as [rq w5];
    injection Hrun as <- <- <-;
    change (EvCommand "install" None
            :: EvCommand "Chrome" None
            :: EvCommand "execute_script" None :: evs4 ++ [EvCommand "quit" (error_of rq)])
      with ([EvCommand "install" None; EvCommand "Chrome" None;
             EvCommand "execute_script" None]
            ++ evs4 ++ [EvCommand "quit" (error_of rq)]);
    rewrite !commands_named_app, ?HChrome, ?Hscript, ?Hquit;
    (split; [ split; [ reflexivity | rewrite !length_app; cbn; lia ]
            | intros e He; vm_compute in He; discriminate ]).
Qed.

End LessonClaims.

Section TimeoutHandling.

Import WaitStrategies.
Context {W : Type} `{Selenium W} `{Lesson W}.

Lemma bind_events_prefix {A B} (m : M W A) (k : A -> M W B) (w : W) :
  exists rest, events_of ((m ≫= k) w) = events_of (m w) ++ rest.
Proof.
  rewrite bind_run. unfold events_of.
  destruct (m w) as [[[a | x] w1] evs1]; cbn [snd].
  - destruct (k a w1) as [[r w2] evs2]. cbn [snd]. eauto.
  - exists []. rewrite app_nil_r. reflexivity.
Qed.

Lemma try_except_events_prefix {A} (m handler : M W A) (w : W) :
  exists rest, events_of (try_except m handler w) = events_of (m w) ++ rest.
Proof.
  unfold try_except, events_of.
  destruct (m w) as [[[a | x] w1] evs1]; cbn [snd].
  - exists []. rewrite app_nil_r. reflexivity.
  - destruct (handler w1) as [[r w2] evs2]. cbn [snd]. eauto.
Qed.

Lemma except_timeout_events_prefix {A} (m handler : M W A) (w : W) :
  exists rest, events_of (except_timeout m handler w) = events_of (m w) ++ rest.
Proof.
  unfold except_timeout, events_of.
  destruct (m w) as [[[a | x] w1] evs1]; cbn [snd].
  - exists []. rewrite app_nil_r. reflexivity.
  - destruct x; try (exists []; rewrite app_nil_r; reflexivity).
    destruct (handler w1) as [[r w2] evs2]. cbn [snd]. eauto.
Qed.

(** X13: In [demonstrate_wait_timeout_handling] the timeout of the wait for
    the element that does not exist is expected: after it the
    demonstration goes on to the wait for the search box.  Any other
    exception of that wait ends the demonstration there, and the
    function still returns normally. *)
Theorem timeout_handling_goes_on_after_a_timeout_only (w w1 w2 : W) :
  driver_get "https://www.google.com" w = (Ok tt, w1) ->
  (lesson_until {| seconds := 2; poll_frequency_ms := None |}
     (expected (presence_of_element_located (ID, "non-existent-id"%string)))
     None w1 = (Raise TimeoutException, w2) ->
   exists rest,
     events_of (demonstrate_wait_timeout_handling w)
     = EvCommand "get" None
       :: EvCommand "until" (Some TimeoutException)
       :: EvCommand "until"
            (error_of
               (fst (lesson_until {| seconds := 2; poll_frequency_ms := None |}
                       (expected (presence_of_element_located (NAME, "q"%string)))
                       None w2)))
       :: rest) /\
  (forall e,
      e <> TimeoutException ->
      lesson_until {| seconds := 2; poll_frequency_ms := None |}
        (expected (presence_of_element_located (ID, "non-existent-id"%string)))
        None w1 = (Raise e, w2) ->
      demonstrate_wait_timeout_handling w
      = (Ok tt, w2, [EvCommand "get" None; EvCommand "until" (Some e)])).
Proof.
  intros Hget. split.
  - intros Hwait. unfold demonstrate_wait_timeout_handling.
    match goal with
    | |- context [ try_except ?body _ w ] =>
        destruct (try_except_events_prefix body (mret tt) w) as [rest0 ->]
    end.
    rewrite bind_run. unfold command at 1. rewrite Hget.
    rewrite bind_run. unfold except_timeout at 1. rewrite bind_run.
    unfold wait_until_with at 1, command at 1. rewrite Hwait.
    cbn [fst snd mret M_ret ret error_of].
    match goal with
    | |- context [ (except_timeout ?second ?handler ≫= ?k) w2 ] =>
        destruct (bind_events_prefix (except_timeout second handler) k w2)
          as [rest1 Hrest1];
        destruct (except_timeout_events_prefix second handler w2)
          as [rest2 Hrest2];
        destruct (bind_events_prefix
                    (wait_until_with {| seconds := 2; poll_frequency_ms := None |}
                       (expected (presence_of_element_located (NAME, "q"%string)))
                       None)
                    (fun _ => mret tt) w2) as [rest3 Hrest3];
        change second with
          (wait_until_with {| seconds := 2; poll_frequency_ms := None |}
             (expected (presence_of_element_located (NAME, "q"%string))) None
           ≫= fun _ => mret tt) in Hrest2;
        rewrite Hrest3 in Hrest2; rewrite Hrest2 in Hrest1;
        unfold events_of in Hrest1;
        destruct ((except_timeout second handler ≫= k) w2) as [[r3 w3] evs3]
    end.
    cbn [snd] in Hrest1. subst evs3.
    unfold wait_until_with, command, events_of.
    destruct (lesson_until {| seconds := 2; poll_frequency_ms := None |}
                (expected (presence_of_element_located (NAME, "q"%string)))
                None w2) as [r2 wq].
    cbn [fst snd app]. eexists. reflexivity.
  - intros e Hne Hwait. unfold demonstrate_wait_timeout_handling.
    unfold try_except. rewrite bind_run. unfold command at 1. rewrite Hget.
    rewrite bind_run. unfold except_timeout at 1. rewrite bind_run.
    unfold wait_until_with at 1, command at 1. rewrite Hwait.
    cbn [fst snd mret M_ret ret error_of].
    destruct e; try reflexivity. contradiction.
Qed.

End TimeoutHandling.

Section LessonRuns.

Import WaitStrategies Scripted Hidden ScriptedLesson.

Lemma demonstrate_implicit_wait_witness :
  commands_named "implicitly_wait(10)"
    (events_of (@demonstrate_implicit_wait World browser no_search_box lesson ready))
    = [None] /\
  commands_named "implicitly_wait(0)"
    (events_of (@demonstrate_implicit_wait World browser no_search_box lesson ready))
    = [].
Proof.
  destruct (@demonstrate_implicit_wait_clears_only_on_success World browser
              no_search_box lesson ready) as (_ & _ & Hfail).
  apply (Hfail NoSuchElementException). reflexivity.
Defined.

Lemma main_quits_witness :
  commands_named "Chrome"
    (events_of (@main World browser script_fails direct lesson ready)) = [None] /\
  commands_named "quit"
    (events_of (@main World browser script_fails direct lesson ready)) = [].
Proof.
  destruct (@main_quits_only_a_driver_it_was_given World browser script_fails
              direct lesson ready) as (_ & Hleak).
  apply (Hleak WebDriverException). reflexivity.
Defined.

Lemma timeout_handling_witness :
  (exists rest,
      events_of (demonstrate_wait_timeout_handling ready)
      = EvCommand "get" None
        :: EvCommand "until" (Some TimeoutException)
        :: EvCommand "until" None :: rest) /\
  @demonstrate_wait_timeout_handling World browser lost_lesson ready
  = (Ok tt, ready, [EvCommand "get" None; EvCommand "until" (Some WebDriverException)]).
Proof.
  split.
  - apply (proj1 (@timeout_handling_goes_on_after_a_timeout_only World browser
                    lesson ready ready ready eq_refl)).
    reflexivity.
  - apply (proj2 (@timeout_handling_goes_on_after_a_timeout_only World browser
                    lost_lesson ready ready ready eq_refl) WebDriverException).
    + discriminate.
    + reflexivity.
Defined.

End LessonRuns.

Example main_runs_every_demonstration :
  commands_named "get" (events_of (WaitStrategies.main Scripted.ready))
  = [None; None; None; None; None; None; None] /\
  commands_named "quit" (events_of (WaitStrategies.main Scripted.ready)) = [None].
Proof. split; reflexivity. Qed.

(* ===================================================================== *)
(** * Part VI: further properties of the custom wait conditions           *)
(* ===================================================================== *)

Section ConditionEdges.

Import Conditions.

Variable matches : Locator -> Conditions.WebElement -> bool.

Lemma length_append_string (s1 s2 : string) :
  String.length (s1 ++ s2)%string = (String.length s1 + String.length s2)%nat.
Proof.
  induction s1 as [ | c s1 IH ]; [ reflexivity | ].
  rewrite append_cons. cbn [String.length]. rewrite IH. reflexivity.
Qed.

Lemma append_empty (s : string) : (s ++ "")%string = s.
Proof.
  induction s as [ | c s IH ]; [ reflexivity | ].
  rewrite append_cons, IH. reflexivity.
Qed.

Lemma find_elements_app (locator : Locator) (page more : Page) :
  Conditions.find_elements matches locator (page ++ more)
  = Conditions.find_elements matches locator page
    ++ Conditions.find_elements matches locator more.
Proof. unfold Conditions.find_elements. apply List.filter_app. Qed.

(** The closure on the page of one tick is the closure over the driver
    that answers from that page. *)
Lemma page_has_minimum_links_on_page (min_links : Z) (page : Page) :
  page_has_minimum_links matches min_links page
  = RemoteConditions.page_has_minimum_links _
      (fun locator => Ok (Conditions.find_elements matches locator page))
      min_links.
Proof. reflexivity. Qed.

(** X14: [page_has_minimum_links] raises exactly what the lookup of the links
    raises.  When the lookup returns, the condition holds for every
    threshold that is zero or negative, and it is monotone: once it holds
    for a threshold, it holds for every smaller threshold whenever a
    lookup returns at least as many links, in particular on every page
    that has further elements before or after. *)
Theorem minimum_links_is_monotone (Element : Type)
    (remote_find remote_find_later : Locator -> Outcome (list Element))
    (min_links : Z) (page : Page) :
  error_of (RemoteConditions.page_has_minimum_links Element remote_find min_links)
  = error_of (remote_find (TAG_NAME, "a")) /\
  ((min_links <= 0)%Z ->
   is_ok (remote_find (TAG_NAME, "a")) = true ->
   RemoteConditions.page_has_minimum_links Element remote_find min_links = Ok true) /\
  (RemoteConditions.page_has_minimum_links Element remote_find min_links = Ok true ->
   forall (fewer : Z) (links later : list Element),
     (fewer <= min_links)%Z ->
     remote_find (TAG_NAME, "a") = Ok links ->
     remote_find_later (TAG_NAME, "a") = Ok later ->
     (length links <= length later)%nat ->
     RemoteConditions.page_has_minimum_links Element remote_find_later fewer
     = Ok true) /\
  (page_has_minimum_links matches min_links page = Ok true ->
   forall (fewer : Z) (before after : Page),
     (fewer <= min_links)%Z ->
     page_has_minimum_links matches fewer (before ++ page ++ after) = Ok true).
Proof.
  assert (Hmono :
            forall (E : Type) (first later : Locator -> Outcome (list E))
                   (threshold fewer : Z) (links more : list E),
              RemoteConditions.page_has_minimum_links E first threshold = Ok true ->
              (fewer <= threshold)%Z ->
              first (TAG_NAME, "a") = Ok links ->
              later (TAG_NAME, "a") = Ok more ->
              (length links <= length more)%nat ->
              RemoteConditions.page_has_minimum_links E later fewer = Ok true).
  { intros E first later threshold fewer links more Hholds Hfewer Hlinks Hlater Hlen.
    unfold RemoteConditions.page_has_minimum_links in *.
    rewrite Hlinks in Hholds. rewrite Hlater.
    injection Hholds as Hholds. apply Z.leb_le in Hholds.
    f_equal. apply Z.leb_le. lia. }
  split; [ | split; [ | split ] ].
  - unfold RemoteConditions.page_has_minimum_links.
    destruct (remote_find (TAG_NAME, "a")); reflexivity.
  - intros Hlow Hok. unfold RemoteConditions.page_has_minimum_links.
    destruct (remote_find (TAG_NAME, "a")) as [ links | e ]; [ | discriminate ].
    f_equal. apply Z.leb_le. lia.
  - intros Hholds fewer links later Hfewer Hlinks Hlater Hlen.
    exact (Hmono Element remote_find remote_find_later min_links fewer links later
             Hholds Hfewer Hlinks Hlater Hlen).
  - intros Hholds fewer before after Hfewer.
    rewrite page_has_minimum_links_on_page in *.
    eapply (Hmono _ _ _ min_links fewer); [ exact Hholds | exact Hfewer | | | ].
    + reflexivity.
    + reflexivity.
    + rewrite !find_elements_app, !length_app. lia.
Qed.

(** X15: A condition that looks at one element is decided by the first match:
    once the page has a match, elements that come after it in the page
    never change what [element_has_text] and
    [element_is_enabled_and_visible] return. *)
Theorem first_match_decides (locator : Locator) (text : string)
    (page more : Page) :
  Conditions.find_elements matches locator page <> [] ->
  element_has_text matches locator text (page ++ more)
  = element_has_text matches locator text page /\
  element_is_enabled_and_visible matches locator (page ++ more)
  = element_is_enabled_and_visible matches locator page.
Proof.
  intros Hfound.
  unfold element_has_text, element_is_enabled_and_visible, Conditions.find_element.
  rewrite find_elements_app.
  destruct (Conditions.find_elements matches locator page) as [ | element rest ];
    [ contradiction | ].
  split; reflexivity.
Qed.

(** X16: Edge cases of [element_has_text] on a first match that has a value:
    the empty text is always found, the whole value is found, and a text
    longer than the value is never found. *)
Theorem has_text_edge_cases (locator : Locator) (page : Page)
    (element : Conditions.WebElement) (rest : list Conditions.WebElement)
    (value : string) :
  Conditions.find_elements matches locator page = element :: rest ->
  Conditions.get_attribute element "value" = Some value ->
  element_has_text matches locator "" page = Ok true /\
  element_has_text matches locator value page = Ok true /\
  (forall text,
      (String.length value < String.length text)%nat ->
      element_has_text matches locator text page = Ok false).
Proof.
  intros Hfound Hvalue.
  unfold element_has_text, Conditions.find_element. rewrite Hfound, Hvalue.
  split; [ | split ].
  - f_equal. apply contains_spec. exists ""%string, value. reflexivity.
  - f_equal. apply contains_spec. exists ""%string, ""%string.
    cbn. rewrite append_empty. reflexivity.
  - intros text Hlonger. f_equal.
    destruct (contains text value) eqn:Hin; [ | reflexivity ].
    apply contains_spec in Hin as (pre & post & Heq).
    rewrite Heq, !length_append_string in Hlonger. lia.
Qed.

End ConditionEdges.

Section ConditionEdgeRuns.

Import Conditions.

Lemma minimum_links_witness :
  page_has_minimum_links simple_matches (-1)
    ([Scenarios.search_box] ++ [MoreScenarios.link 10; MoreScenarios.link 11]
     ++ [Scenarios.second_box])
  = Ok true /\
  RemoteConditions.page_has_minimum_links Conditions.WebElement
    (fun _ => Ok [MoreScenarios.link 10]) 0 = Ok true.
Proof.
  destruct (minimum_links_is_monotone simple_matches Conditions.WebElement
              (fun _ => Ok [MoreScenarios.link 10])
              (fun _ => Ok [MoreScenarios.link 10])
              0%Z [MoreScenarios.link 10; MoreScenarios.link 11])
    as (_ & Hlow & _ & _).
  destruct (minimum_links_is_monotone simple_matches Conditions.WebElement
              (fun _ => Ok [MoreScenarios.link 10])
              (fun _ => Ok [MoreScenarios.link 10])
              2%Z [MoreScenarios.link 10; MoreScenarios.link 11])
    as (_ & _ & _ & Hpage).
  split.
  - apply Hpage.
    + reflexivity.
    + lia.
  - apply Hlow.
    + lia.
    + reflexivity.
Defined.

Lemma first_match_decides_witness :
  element_has_text simple_matches (NAME, "q") "Google" Scenarios.ambiguous_page
  = element_has_text simple_matches (NAME, "q") "Google" [Scenarios.search_box].
Proof.
  apply (first_match_decides simple_matches (NAME, "q") "Google"
           [Scenarios.search_box] [Scenarios.second_box]).
  vm_compute. discriminate.
Defined.

Lemma has_text_edge_cases_witness :
  element_has_text simple_matches (NAME, "q") "" Scenarios.ambiguous_page = Ok true /\
  element_has_text simple_matches (NAME, "q") "Google Search and more"
    Scenarios.ambiguous_page = Ok false.
Proof.
  destruct (has_text_edge_cases simple_matches (NAME, "q") Scenarios.ambiguous_page
              Scenarios.search_box [Scenarios.second_box] "Google Search")
    as (Hempty & _ & Hlonger).
  - vm_compute. reflexivity.
  - vm_compute. reflexivity.
  - split; [ exact Hempty | ]. apply Hlonger. cbn. lia.
Defined.

End ConditionEdgeRuns.

Section MoreTestRuns.

Import PageObjectModel Scripted Hidden.

Lemma form_test_witness :
  exists w4 element w5,
    driver_find_element FacebookPage.EMAIL_FIELD w4 = (Ok element, w5) /\
    element_get_attribute w5 element "value"
    = Ok (Some "test@example.com"%string).
Proof.
  destruct (@form_test_never_clicks World browser direct ready) as (_ & _ & Hpass).
  destruct (Hpass eq_refl)
    as (w1 & evs1 & w2 & evs2 & w3 & evs3 & w4 & evs4 & element & w5
        & _ & _ & _ & _ & Hfind & Hvalue).
  exists w4, element, w5. split; [ exact Hfind | exact Hvalue ].
Defined.

End MoreTestRuns.

(* ===================================================================== *)
(** * Part VII: nothing happens after a failed step                        *)
(* ===================================================================== *)

Section FailStopFacts.

Context {W : Type} `{Selenium W}.

Lemma fail_stop_ret {A} (a : A) : FailStop (mret a : M W A).
Proof. intros w. left. constructor. Qed.

Lemma fail_stop_query {A} (q : W -> Outcome A) : FailStop (query q).
Proof. intros w. left. constructor. Qed.

Lemma fail_stop_sleep seconds : FailStop (sleep seconds).
Proof. intros w. left. repeat constructor. Qed.

Lemma fail_stop_until {R} (c : ExpectedCondition R) : FailStop (until c).
Proof.
  intros w. unfold until, events_of, result_of.
  destruct (wait_until c w) as [[a | x] w1]; cbn.
  - left. repeat constructor.
  - right. exists [], (EvUntil c (Some x)), x. repeat split. constructor.
Qed.

Lemma fail_stop_command {A} name (c : W -> Outcome A * W) :
  FailStop (command name c).
Proof.
  intros w. unfold command, events_of, result_of.
  destruct (c w) as [[a | x] w1]; cbn.
  - left. repeat constructor.
  - right. exists [], (EvCommand name (Some x)), x. repeat split. constructor.
Qed.

Lemma fail_stop_bind {A B} (m : M W A) (k : A -> M W B) :
  FailStop m -> (forall a, FailStop (k a)) -> FailStop (m ≫= k).
Proof.
  intros Hm Hk w. rewrite bind_run.
  specialize (Hm w). unfold events_of, result_of in *.
  destruct (m w) as [[[a | x] w1] evs1]; cbn [fst snd] in *.
  - assert (Hclean : clean evs1).
    { destruct Hm as [ Hc | (pre & ev & e & _ & _ & _ & Hr) ];
        [ exact Hc | discriminate ]. }
    specialize (Hk a w1). unfold events_of, result_of in Hk.
    destruct (k a w1) as [[r w2] evs2]. cbn [fst snd] in *.
    destruct Hk as [ Hc | (pre & ev & e & -> & Hpre & Hev & Hr) ].
    + left. apply Forall_app. split; assumption.
    + right. exists (evs1 ++ pre), ev, e. rewrite app_assoc.
      split; [ reflexivity | ]. split; [ apply Forall_app; split; assumption | ].
      split; assumption.
  - destruct Hm as [ Hc | (pre & ev & e & Hev & Hpre & Hf & Hr) ];
      [ left; exact Hc | ].
    right. exists pre, ev, e. injection Hr as ->. repeat split; assumption.
Qed.

Lemma fail_stop_if {A} (b : bool) (m1 m2 : M W A) :
  FailStop m1 -> FailStop m2 -> FailStop (if b then m1 else m2).
Proof. destruct b; auto. Qed.

Lemma fail_stop_nonempty_texts results :
  FailStop (BasePage.nonempty_texts results).
Proof.
  induction results as [ | result rest IH ]; cbn [BasePage.nonempty_texts].
  - apply fail_stop_ret.
  - apply fail_stop_bind; [ apply fail_stop_query | ].
    intros shown. apply fail_stop_if; [ exact IH | ].
    apply fail_stop_bind; [ apply fail_stop_query | ].
    intros text. apply fail_stop_bind; [ exact IH | ].
    intros texts. apply fail_stop_ret.
Qed.

(** A visibility check is one wait: its trace is that one step. *)
Lemma visibility_check_trace (locator : Locator) (w : W) :
  exists failure,
    events_of (BasePage.is_element_visible locator w)
    = [EvUntil (visibility_of_element_located locator) failure].
Proof.
  unfold BasePage.is_element_visible, try_except, events_of.
  rewrite bind_run. unfold until, query.
  destruct (wait_until (visibility_of_element_located locator) w)
    as [[element | x] w1]; cbn.
  - destruct (is_displayed w1 element); cbn; eauto.
  - eauto.
Qed.

End FailStopFacts.

Ltac fail_stop_steps :=
  repeat first
    [ apply fail_stop_nonempty_texts
    | apply fail_stop_ret
    | apply fail_stop_query
    | apply fail_stop_sleep
    | apply fail_stop_until
    | apply fail_stop_command
    | apply fail_stop_if
    | apply fail_stop_bind; [ | intros ? ] ].

Section FailStopClaims.

Context {W : Type} `{Selenium W}.

Lemma perform_fail_stop {R} (op : PageOp R) :
  catches op = false -> FailStop (perform op).
Proof.
  destruct op; cbn [catches]; intros Hc; try discriminate;
    cbn [perform]; unfold_page_objects; fail_stop_steps.
Qed.

(** X2: No page-object method goes on after a step failed: in the trace of
    every method, on every browser, at most one wait or command has
    failed and it is the last event, so nothing is typed, clicked, saved
    or slept after it; and unless the method is one of the four
    visibility checks it raises the exception of that step. *)
Theorem page_objects_stop_at_the_first_failure {R} (op : PageOp R) (w : W) :
  clean (events_of (perform op w)) \/
  exists pre ev e,
    events_of (perform op w) = pre ++ [ev] /\ clean pre /\
    failure_of ev = Some e /\
    (catches op = false -> result_of (perform op w) = Raise e).
Proof.
  destruct (catches op) eqn:Hc.
  - assert (Hone : exists locator,
               events_of (perform op w)
               = events_of (BasePage.is_element_visible locator w)).
    { destruct op; try discriminate; cbn [perform]; eexists; reflexivity. }
    destruct Hone as [locator ->].
    destruct (visibility_check_trace locator w) as [[e | ] ->].
    + right. exists [], (EvUntil (visibility_of_element_located locator) (Some e)), e.
      repeat split; [ constructor | discriminate ].
    + left. repeat constructor.
  - destruct (perform_fail_stop op Hc w) as [ Hclean | (pre & ev & e & Hev & Hpre & Hf & Hr) ].
    + left. exact Hclean.
    + right. exists pre, ev, e. repeat split; auto.
Qed.

End FailStopClaims.

Section FailStopRuns.

Import Scripted.

Lemma page_objects_stop_witness :
  result_of (perform (google_search "selenium") stuck) = Raise TimeoutException.
Proof.
  destruct (@page_objects_stop_at_the_first_failure World browser unit
              (google_search "selenium") stuck)
    as [ Hclean | (pre & ev & e & Hev & _ & Hf & Hr) ].
  - exfalso. cbn in Hclean. apply Forall_cons in Hclean as [Hfirst _].
    discriminate.
  - rewrite (Hr eq_refl). f_equal.
    cbn in Hev. destruct pre as [ | first pre ].
    + injection Hev as <-. cbn in Hf. congruence.
    + injection Hev as _ Hev. destruct pre; discriminate.
Defined.

End FailStopRuns.
